(** * The chat controller of [src/hooks/useChat.tsx]

    A shallow embedding of the [useChat] hook: the transcript, the loading
    flag, the system prompt and the responder are the four [useState] cells;
    the callbacks are state transformers in a small state-and-exception
    monad; the retry loop of [callApiWithRetry] is a well-founded recursion
    on [maxRetries - retryCount].

    Conventions of the embedding.
    - A JavaScript string is a [string] holding the bytes of its UTF-8
      encoding (an unpaired surrogate as the three bytes of its code
      point), so every JavaScript string has its [string].  [trim] reads
      the characters off the bytes and strips the code points that
      [String.prototype.trim] strips.  The literals of the source are
      ASCII.
    - [Date.now()] and [new Date()] read an external clock.  The clock is an
      oracle [clock : nat -> N]: its [k]-th reading, in milliseconds.  No
      monotonicity is built in; a theorem that needs it says so.
    - The responder ([apiFunction]) is an external collaborator.  A function
      value carries its behaviour: the outcome (a resolved reply or a
      failure) of an invocation, given how many responder invocations the
      session has seen before it and the two arguments.  A responder that
      throws synchronously and one whose promise rejects are both caught by
      the same [try]/[await]/[catch], so they are one outcome here.  The
      responder contract has every invocation settle.
    - [useCallback] closes over the values of the render that created the
      callback.  [callApiWithRetry] reads [apiFunction] and [systemPrompt]
      from that closure, and its recursive call goes through the
      [callApiWithRetry] binding of the same render, hence the same closure.
      State setters ([setMessages] with an updater, [setIsLoading]) act on
      the live state cells.
    - While an [await] is pending, the host may run [clearMessages],
      [setSystemPrompt] and [updateApiFunction].  A [Schedule] lists them
      per suspension point.  A second [sendMessage] inside a pending one is
      outside the model, and so is a later render with other options,
      which would run the two effects again: sessions are sequences of
      the four public operations on a hook whose options stay as they
      were at mounting. *)

From Stdlib Require Import String Ascii List Bool Arith NArith ZArith Lia.
From Stdlib Require Import DecimalString DecimalN.
From Equations Require Import Equations.
Import ListNotations.

Open Scope string_scope.
Open Scope list_scope.

(** ** JavaScript strings and numbers *)

(** The code points [String.prototype.trim] strips: [WhiteSpace] (TAB, VT,
    FF, the byte order mark U+FEFF and the space separators U+0020, U+00A0,
    U+1680, U+2000 to U+200A, U+202F, U+205F, U+3000) and [LineTerminator]
    (LF, CR, U+2028, U+2029). *)
Definition isWhiteSpace (cp : N) : bool :=
  ((cp =? 0x9) || (cp =? 0xB) || (cp =? 0xC) || (cp =? 0xFEFF)
   || (cp =? 0x20) || (cp =? 0xA0) || (cp =? 0x1680)
   || ((0x2000 <=? cp) && (cp <=? 0x200A))
   || (cp =? 0x202F) || (cp =? 0x205F) || (cp =? 0x3000)
   || (cp =? 0xA) || (cp =? 0xD) || (cp =? 0x2028) || (cp =? 0x2029))%N.

(** One character of a string: its code point, its first byte and the
    bytes that follow it. *)
Definition Char : Type := N * ascii * string.

(** A continuation byte [10xxxxxx], and the six bits it carries. *)
Definition continuation (c : ascii) : bool :=
  ((0x80 <=? N_of_ascii c) && (N_of_ascii c <=? 0xBF))%N.

Definition payload (c : ascii) : N := (N_of_ascii c mod 64)%N.

(** The code points of two, three and four bytes. *)
Definition code2 (c1 c2 : ascii) : N :=
  (N_of_ascii c1 mod 32 * 64 + payload c2)%N.

Definition code3 (c1 c2 c3 : ascii) : N :=
  (N_of_ascii c1 mod 16 * 4096 + payload c2 * 64 + payload c3)%N.

Definition code4 (c1 c2 c3 c4 : ascii) : N :=
  (N_of_ascii c1 mod 8 * 262144 + payload c2 * 4096 + payload c3 * 64
   + payload c4)%N.

(** A byte that starts no well-formed character stands alone, with a code
    beyond U+10FFFF. *)
Definition stray (c : ascii) : Char :=
  ((0x110000 + N_of_ascii c)%N, c, EmptyString).

(** The characters of a string, by UTF-8: one byte below 0x80, else the
    shortest of two, three or four bytes with continuation bytes and a code
    point in the range of that length. *)
Fixpoint chars (s : string) : list Char :=
  match s with
  | EmptyString => []
  | String c1 r1 =>
      if (N_of_ascii c1 <? 0x80)%N
      then (N_of_ascii c1, c1, EmptyString) :: chars r1
      else
        match r1 with
        | EmptyString => stray c1 :: chars r1
        | String c2 r2 =>
            if continuation c2 && (0x80 <=? code2 c1 c2)%N
               && (N_of_ascii c1 / 32 =? 6)%N
            then (code2 c1 c2, c1, String c2 EmptyString) :: chars r2
            else
              match r2 with
              | EmptyString => stray c1 :: chars r1
              | String c3 r3 =>
                  if continuation c2 && continuation c3
                     && (0x800 <=? code3 c1 c2 c3)%N
                     && (N_of_ascii c1 / 16 =? 14)%N
                  then (code3 c1 c2 c3, c1, String c2 (String c3 EmptyString))
                       :: chars r3
                  else
                    match r3 with
                    | EmptyString => stray c1 :: chars r1
                    | String c4 r4 =>
                        if continuation c2 && continuation c3 && continuation c4
                           && (0x10000 <=? code4 c1 c2 c3 c4)%N
                           && (code4 c1 c2 c3 c4 <=? 0x10FFFF)%N
                           && (N_of_ascii c1 / 8 =? 30)%N
                        then (code4 c1 c2 c3 c4, c1,
                              String c2 (String c3 (String c4 EmptyString)))
                             :: chars r4
                        else stray c1 :: chars r1
                    end
              end
        end
  end.

(** The bytes of a list of characters. *)
Fixpoint string_of_chars (l : list Char) : string :=
  match l with
  | [] => EmptyString
  | (_, c, more) :: rest => String c (more ++ string_of_chars rest)%string
  end.

Definition white (ch : Char) : bool := isWhiteSpace (fst (fst ch)).

Fixpoint dropWhile {A : Type} (p : A -> bool) (l : list A) : list A :=
  match l with
  | [] => []
  | x :: rest => if p x then dropWhile p rest else l
  end.

(** [s.trim()]: the characters of [s] without the white space at its start
    and at its end. *)
Definition trim (s : string) : string :=
  string_of_chars (rev (dropWhile white (rev (dropWhile white (chars s))))).

(** The string of the given bytes, to write text beyond ASCII down. *)
Fixpoint bytes (l : list nat) : string :=
  match l with
  | [] => EmptyString
  | b :: rest => String (ascii_of_nat b) (bytes rest)
  end.

(** Every character of [s] is white space (the empty string included). *)
Definition whitespace_only (s : string) : bool :=
  forallb white (chars s).

(** Truthiness of a string: every string but the empty one. *)
Definition truthy_string (s : string) : bool :=
  match s with
  | EmptyString => false
  | String _ _ => true
  end.

(** [n.toString()] for a non-negative integer below 1e21: its decimal
    digits ([Date.now()] stays below 8.64e15). *)
Definition toString (n : N) : string :=
  NilEmpty.string_of_uint (N.to_uint n).

(** ** Data model *)

Record Message : Type := mkMessage {
  id : string;
  text : string;
  isUser : bool;
  timestamp : string
}.

Definition JsError : Type := string.

(** What one responder invocation settles to. *)
Inductive Outcome : Type :=
| Resolved (reply : string)
| Rejected (error : JsError).

(** The value held in the [apiFunction] cell.  Its TypeScript type says
    function; the code tests [typeof apiFunction !== 'function'], so the
    model keeps the other values too, with their truthiness. *)
Inductive ApiValue : Type :=
| JsFunction (behaviour : nat -> string -> string -> Outcome)
| JsOther (truthy : bool).

Definition is_function (v : ApiValue) : bool :=
  match v with
  | JsFunction _ => true
  | JsOther _ => false
  end.

Definition truthy_api (v : ApiValue) : bool :=
  match v with
  | JsFunction _ => true
  | JsOther t => t
  end.

Record ChatOptions : Type := mkChatOptions {
  initialMessages : option (list Message);
  opt_systemPrompt : option string;
  opt_apiFunction : option ApiValue
}.

(** Line feed, the line separator of the template literal below. *)
Definition LF : string := String (ascii_of_nat 10) EmptyString.

(** The template literal of the source, line by line; its first two text
    lines end in a space. *)
Definition defaultSystemPrompt : string :=
  (LF ++
  "You are MentalHealthChat, an AI assistant focused on supporting mental wellbeing. " ++ LF ++
  "Your responses should be empathetic, supportive, and helpful. " ++ LF ++
  "Provide guidance on stress management, emotional wellbeing, and mindfulness." ++ LF ++
  "Suggest practical exercises when appropriate." ++ LF ++
  "If the user seems to be in crisis, gently suggest professional help." ++ LF)%string.

Definition greetingText : string :=
  "Hi there! I'm MentalHealthChat, your supportive companion. How are you feeling today?".

Definition degradedText : string :=
  "I'm having trouble connecting to my brain right now. Please try again in a moment.".

Definition apologyText : string :=
  "I'm having trouble responding right now. Please try again in a moment.".

(** ** Effects *)

Inductive LogLine : Type :=
| LogNotInitialized                       (* 'API function is not properly initialized:' *)
| LogApiCallError (error : JsError)       (* "API call error:" *)
| LogRetrying (attempt maxRetries : nat)  (* `Retrying API call (a/m)...` *)
| LogFailedResponse (error : JsError)     (* "Failed to get response:" *)
| LogBadUpdate.                           (* 'Attempted to update apiFunction ...' *)

(** What the controller does to its surroundings, in order. *)
Inductive Event : Type :=
| EvInvoke (userMessage prompt : string)  (* apiFunction(userMessage, systemPrompt) *)
| EvTimeout (ms : Z)                      (* setTimeout(resolve, ms) *)
| EvConsole (line : LogLine)
| EvAddMessage (m : Message).             (* setMessages(prev => [...prev, m]) *)

(** The four state cells of the hook, the number of clock readings taken so
    far, and the trace of effects. *)
Record World : Type := mkWorld {
  messages : list Message;
  isLoading : bool;
  systemPrompt : string;
  apiFunction : ApiValue;
  reads : nat;
  trace : list Event
}.

(** Public operations the host can run, also while a send is suspended. *)
Inductive HostOp : Type :=
| HClearMessages
| HSetSystemPrompt (prompt : string)
| HUpdateApiFunction (newApiFunction : ApiValue).

(** Host activity during the suspensions of one [sendMessage]: while attempt
    [k]'s responder promise is pending, and while the back-off timer set
    after attempt [k] runs. *)
Record Schedule : Type := mkSchedule {
  during_call : nat -> list HostOp;
  during_wait : nat -> list HostOp
}.

Definition quiet : Schedule :=
  {| during_call := fun _ => []; during_wait := fun _ => [] |}.

(** The values a callback closed over. *)
Record Closure : Type := mkClosure {
  captured_apiFunction : ApiValue;
  captured_systemPrompt : string
}.

(** State-and-exception monad. *)
Inductive Completion (A : Type) : Type :=
| Normal (a : A)
| Throw (e : JsError).
Arguments Normal {A} a.
Arguments Throw {A} e.

Definition M (A : Type) : Type := World -> Completion A * World.

Definition ret {A} (a : A) : M A := fun w => (Normal a, w).

Definition throw {A} (e : JsError) : M A := fun w => (Throw e, w).

Definition bind {A B} (m : M A) (k : A -> M B) : M B :=
  fun w =>
    match m w with
    | (Normal a, w') => k a w'
    | (Throw e, w') => (Throw e, w')
    end.

Notation "x <- m ;; k" := (bind m (fun x => k))
  (at level 61, m at next level, right associativity).
Notation "m ;;; k" := (bind m (fun _ => k))
  (at level 61, right associativity).

Definition try_catch {A} (body : M A) (handler : JsError -> M A) : M A :=
  fun w =>
    match body w with
    | (Normal a, w') => (Normal a, w')
    | (Throw e, w') => handler e w'
    end.

Definition try_finally {A} (body : M A) (finalizer : M unit) : M A :=
  fun w =>
    match body w with
    | (r, w') =>
        match finalizer w' with
        | (Normal _, w'') => (r, w'')
        | (Throw e, w'') => (Throw e, w'')
        end
    end.

Definition modify (f : World -> World) : M unit := fun w => (Normal tt, f w).

(** The world a computation leaves. *)
Definition after {A} (m : M A) (w : World) : World := snd (m w).

Definition emit (e : Event) : M unit :=
  modify (fun w =>
    mkWorld (messages w) (isLoading w) (systemPrompt w) (apiFunction w)
            (reads w) (trace w ++ [e])).

Definition console (l : LogLine) : M unit := emit (EvConsole l).

Definition setMessages (f : list Message -> list Message) : M unit :=
  modify (fun w =>
    mkWorld (f (messages w)) (isLoading w) (systemPrompt w) (apiFunction w)
            (reads w) (trace w)).

Definition setIsLoading (b : bool) : M unit :=
  modify (fun w =>
    mkWorld (messages w) b (systemPrompt w) (apiFunction w) (reads w) (trace w)).

Definition setSystemPrompt (p : string) : M unit :=
  modify (fun w =>
    mkWorld (messages w) (isLoading w) p (apiFunction w) (reads w) (trace w)).

Definition setApiFunction (v : ApiValue) : M unit :=
  modify (fun w =>
    mkWorld (messages w) (isLoading w) (systemPrompt w) v (reads w) (trace w)).

Definition is_invoke (e : Event) : bool :=
  match e with
  | EvInvoke _ _ => true
  | _ => false
  end.

(** Responder invocations the session has seen. *)
Definition invocations (w : World) : nat :=
  length (filter is_invoke (trace w)).

(** ** Sample surroundings

    Concrete clocks, responders and host schedules on which the theorems
    below are exercised. *)

(** A clock that advances one millisecond per reading. *)
Definition ticking_clock (k : nat) : N := 1730000000000 + N.of_nat k.



(** Stand-in for [Date.prototype.toISOString] in the examples: the instant's
    milliseconds in decimal. *)
Definition sample_toISOString (ms : N) : string := toString ms.

Definition always_rejects : ApiValue :=
  JsFunction (fun _ _ _ => Rejected "network down").

Definition echo : ApiValue :=
  JsFunction (fun _ userMessage _ => Resolved userMessage).

(** Fails until the session has seen [n] invocations, then replies. *)
Definition flaky_until (n : nat) : ApiValue :=
  JsFunction (fun k userMessage _ =>
                if Nat.ltb k n then Rejected "timeout" else Resolved "Take a slow breath.").

Definition breathing : ApiValue :=
  JsFunction (fun _ _ _ => Resolved "Let's try a breathing exercise").

(** Rejects every invocation, with the number of earlier invocations as
    the error. *)
Definition rejects_with_its_count : ApiValue :=
  JsFunction (fun k _ _ => Rejected (toString (N.of_nat k))).

(** A value that is not a function, as an untyped caller can pass. *)
Definition unplugged : ApiValue := JsOther true.

Definition default_options : ChatOptions :=
  {| initialMessages := None; opt_systemPrompt := None; opt_apiFunction := None |}.

(** The host replaces the system prompt while the first back-off timer runs. *)
Definition prompt_swapped_during_first_wait : Schedule :=
  {| during_call := fun _ => [];
     during_wait := fun k => if Nat.eqb k 0 then [HSetSystemPrompt "new prompt"] else [] |}.

(** The host clears the transcript while the first attempt is pending. *)
Definition cleared_during_first_call : Schedule :=
  {| during_call := fun k => if Nat.eqb k 0 then [HClearMessages] else [];
     during_wait := fun _ => [] |}.

(** ** The controller *)

Section Controller.

(** The external clock, [Date.prototype.toISOString] on the instant of a
    reading, and the default responder imported from ['@/lib/apiClient']
    (not part of these sources). *)
Variable clock : nat -> N.
Variable toISOString : N -> string.
Variable callChatApi : ApiValue.

(** [Date.now()]: the next reading of the clock. *)
Definition Date_now : M N :=
  fun w =>
    (Normal (clock (reads w)),
     mkWorld (messages w) (isLoading w) (systemPrompt w) (apiFunction w)
             (S (reads w)) (trace w)).

(** [new Date()], as the instant it holds: a reading of the same clock. *)
Definition new_Date : M N := Date_now.

(** The seed entry, built in [useChat] and again in [clearMessages]. *)
Definition greeting : M Message :=
  now <- new_Date ;;
  ret {| id := "1"; text := greetingText; isUser := false;
         timestamp := toISOString now |}.

(** [options.systemPrompt || defaultSystemPrompt] *)
Definition systemPrompt_or_default (options : ChatOptions) : string :=
  match opt_systemPrompt options with
  | Some p => if truthy_string p then p else defaultSystemPrompt
  | None => defaultSystemPrompt
  end.

(** [options.apiFunction || callChatApi] *)
Definition apiFunction_or_default (options : ChatOptions) : ApiValue :=
  match opt_apiFunction options with
  | Some f => if truthy_api f then f else callChatApi
  | None => callChatApi
  end.

(** The two [useEffect] bodies (lines 47-60), run after the first render. *)
Definition effects (options : ChatOptions) : M unit :=
  (match opt_apiFunction options with
   | Some f => if truthy_api f then setApiFunction f else setApiFunction callChatApi
   | None => setApiFunction callChatApi
   end) ;;;
  (match opt_systemPrompt options with
   | Some p => if truthy_string p then setSystemPrompt p else ret tt
   | None => ret tt
   end).

(** The hook before its first render; every cell is initialised by
    [useChat] below. *)
Definition unmounted : World :=
  {| messages := []; isLoading := false; systemPrompt := "";
     apiFunction := JsOther false; reads := 0; trace := [] |}.

(** The first render (lines 27-44) and its effects.  The four [useState]
    initialisers run in source order.  An array is truthy also when empty, so
    [options.initialMessages || [...]] takes any supplied list and builds
    the seed only when none is. *)
Definition mount (options : ChatOptions) : M unit :=
  initial <- match initialMessages options with
             | Some supplied => ret supplied
             | None => g <- greeting ;; ret [g]
             end ;;
  setMessages (fun _ => initial) ;;;
  setIsLoading false ;;;
  setSystemPrompt (systemPrompt_or_default options) ;;;
  setApiFunction (apiFunction_or_default options) ;;;
  effects options.

(** The hook after mounting. *)
Definition useChat (options : ChatOptions) : World :=
  after (mount options) unmounted.

(** [addMessage] (lines 62-72): the id is read from the clock first, the
    timestamp next. *)
Definition addMessage (text : string) (isUser : bool) : M Message :=
  ms <- Date_now ;;
  now <- new_Date ;;
  let newMessage := {| id := toString ms; text := text; isUser := isUser;
                       timestamp := toISOString now |} in
  setMessages (fun prev => (prev ++ [newMessage])%list) ;;;
  emit (EvAddMessage newMessage) ;;;
  ret newMessage.

(** [clearMessages] (lines 118-127). *)
Definition clearMessages : M unit :=
  g <- greeting ;;
  setMessages (fun _ => [g]).

(** [updateApiFunction] (lines 130-136). *)
Definition updateApiFunction (newApiFunction : ApiValue) : M unit :=
  if is_function newApiFunction
  then setApiFunction newApiFunction
  else console LogBadUpdate.

Definition host_op (h : HostOp) : M unit :=
  match h with
  | HClearMessages => clearMessages
  | HSetSystemPrompt p => setSystemPrompt p
  | HUpdateApiFunction v => updateApiFunction v
  end.

(** The host's operations while the controller is suspended. *)
Fixpoint suspended (hs : list HostOp) : M unit :=
  match hs with
  | [] => ret tt
  | h :: rest => host_op h ;;; suspended rest
  end.

(** [await apiFunction(userMessage, systemPrompt)] on a function value:
    the invocation, the host's activity while the promise is pending, then
    the outcome. *)
Definition await_call (behaviour : nat -> string -> string -> Outcome)
    (pending : list HostOp) (userMessage prompt : string) : M string :=
  fun w =>
    let outcome := behaviour (invocations w) userMessage prompt in
    match (emit (EvInvoke userMessage prompt) ;;; suspended pending) w with
    | (Normal _, w') =>
        match outcome with
        | Resolved reply => (Normal reply, w')
        | Rejected error => (Throw error, w')
        end
    | (Throw e, w') => (Throw e, w')
    end.

(** [await new Promise(resolve => setTimeout(resolve, ms))] *)
Definition sleep (ms : Z) (pending : list HostOp) : M unit :=
  emit (EvTimeout ms) ;;; suspended pending.

(** [callApiWithRetry] (lines 74-97) of the render with closure [cl].  The
    recursive call is in the [catch] block, so what it throws leaves this
    level as it is. *)
Equations callApiWithRetry (cl : Closure) (sched : Schedule)
    (userMessage : string) (retryCount maxRetries : nat) : M string
    by wf (maxRetries - retryCount) lt :=
  callApiWithRetry cl sched userMessage retryCount maxRetries :=
    try_catch
      (match captured_apiFunction cl with
       | JsOther _ =>
           console LogNotInitialized ;;;
           ret degradedText
       | JsFunction behaviour =>
           await_call behaviour (during_call sched retryCount)
                      userMessage (captured_systemPrompt cl)
       end)
      (fun error =>
         console (LogApiCallError error) ;;;
         match lt_dec retryCount maxRetries with
         | left _ =>
             console (LogRetrying (retryCount + 1) maxRetries) ;;;
             sleep (1000 * 2 ^ Z.of_nat retryCount)
                   (during_wait sched retryCount) ;;;
             callApiWithRetry cl sched userMessage (retryCount + 1) maxRetries
         | right _ => throw error
         end).
Next Obligation. lia. Qed.

(** [sendMessage] (lines 99-116) as created by a render with closure [cl];
    [None] is the [undefined] of the early return. *)
Definition sendMessage_of (cl : Closure) (sched : Schedule) (text : string)
    : M (option Message) :=
  if negb (truthy_string (trim text)) then ret None
  else
    userMessage <- addMessage text true ;;
    setIsLoading true ;;;
    try_finally
      (try_catch
         (response <- callApiWithRetry cl sched text 0 3 ;;
          addMessage response false ;;;
          ret tt)
         (fun error =>
            console (LogFailedResponse error) ;;;
            addMessage apologyText false ;;;
            ret tt))
      (setIsLoading false) ;;;
    ret (Some userMessage).

(** The closure of the render that shows state [w]. *)
Definition render (w : World) : Closure :=
  {| captured_apiFunction := apiFunction w;
     captured_systemPrompt := systemPrompt w |}.

(** [sendMessage] as the host holds it: the callback of the latest render. *)
Definition sendMessage (sched : Schedule) (text : string) : M (option Message) :=
  fun w => sendMessage_of (render w) sched text w.

(** The public operations, and a session as a sequence of them. *)
Inductive Op : Type :=
| OpSend (text : string) (sched : Schedule)
| OpHost (h : HostOp).

Definition step (o : Op) (w : World) : World :=
  match o with
  | OpSend text sched => snd (sendMessage sched text w)
  | OpHost h => snd (host_op h w)
  end.

Definition run (ops : list Op) (w : World) : World :=
  fold_left (fun w o => step o w) ops w.


(** ** Worlds along a run *)

(** The world in which the next attempt starts, after attempt
    [retryCount] failed with [error] in world [w]. *)
Definition backed_off (sched : Schedule) (retryCount maxRetries : nat)
    (error : JsError) (w : World) : World :=
  after (suspended (during_wait sched retryCount))
    (after (emit (EvTimeout (1000 * 2 ^ Z.of_nat retryCount)))
      (after (console (LogRetrying (retryCount + 1) maxRetries))
        (after (console (LogApiCallError error)) w))).

(** The world in which attempt [retryCount] settles. *)
Definition called (cl : Closure) (sched : Schedule) (userMessage : string)
    (retryCount : nat) (w : World) : World :=
  after (suspended (during_call sched retryCount))
    (after (emit (EvInvoke userMessage (captured_systemPrompt cl))) w).

(** The entry [addMessage text isUser] builds in world [w]: the id is the
    next clock reading in decimal, the timestamp the one after it. *)
Definition new_message (text : string) (isUser : bool) (w : World) : Message :=
  {| id := toString (clock (reads w)); text := text; isUser := isUser;
     timestamp := toISOString (clock (S (reads w))) |}.

(** The world [addMessage] leaves when it appends [m]. *)
Definition appended (m : Message) (w : World) : World :=
  mkWorld (messages w ++ [m]) (isLoading w) (systemPrompt w) (apiFunction w)
          (S (S (reads w))) (trace w ++ [EvAddMessage m]).

(** The world in which the retry loop of [sendMessage text] starts: the
    user's entry appended, the loading flag raised. *)
Definition sending (text : string) (w : World) : World :=
  after (setIsLoading true) (appended (new_message text true w) w).

(** ** Reading the trace *)

(** A selection of events that leaves console lines out. *)
Definition silent (keep : Event -> bool) : Prop :=
  forall l, keep (EvConsole l) = false.

Definition is_add (e : Event) : bool :=
  match e with
  | EvAddMessage _ => true
  | _ => false
  end.

(** Invocations, timers and appended entries: all but the console. *)
Definition observable (e : Event) : bool :=
  match e with
  | EvConsole _ => false
  | _ => true
  end.

(** The entries [addMessage] appended so far, in order. *)
Fixpoint added_in (t : list Event) : list Message :=
  match t with
  | [] => []
  | EvAddMessage m :: rest => m :: added_in rest
  | _ :: rest => added_in rest
  end.

Definition added (w : World) : list Message := added_in (trace w).

(** What attempts [retryCount], ..., [retryCount + retries] of one retry
    loop do when all but possibly the last fail: an invocation, then for
    each retry its timer and the next invocation. *)
Fixpoint retry_script (userMessage prompt : string) (retryCount retries : nat)
    : list Event :=
  match retries with
  | O => [EvInvoke userMessage prompt]
  | S n =>
      EvInvoke userMessage prompt
      :: EvTimeout (1000 * 2 ^ Z.of_nat retryCount)
      :: retry_script userMessage prompt (S retryCount) n
  end.

(** The first [n] invocations counted from [base] fail on these arguments. *)
Definition fails (behaviour : nat -> string -> string -> Outcome)
    (base n : nat) (userMessage prompt : string) : Prop :=
  forall k, k < n -> exists error,
    behaviour (base + k) userMessage prompt = Rejected error.

(** The events the retry loop of closure [cl] can emit for [userMessage]. *)
Definition retry_event (cl : Closure) (userMessage : string) (e : Event) : Prop :=
  match e with
  | EvInvoke m p => m = userMessage /\ p = captured_systemPrompt cl
  | EvTimeout _ => True
  | EvConsole _ => True
  | EvAddMessage _ => False
  end.

(** From [w] to [w'] the trace grew, by events that satisfy [ok] only. *)
Definition grew_by (ok : Event -> Prop) (w w' : World) : Prop :=
  exists delta, trace w' = trace w ++ delta /\ Forall ok delta.

(** An invocation, if [e] is one, passes [userMessage] and [prompt]. *)
Definition invokes_with (userMessage prompt : string) (e : Event) : Prop :=
  forall m p, e = EvInvoke m p -> m = userMessage /\ p = prompt.

(** [h] runs at some suspension point of [sched]. *)
Definition scheduled (sched : Schedule) (h : HostOp) : Prop :=
  exists k, In h (during_call sched k) \/ In h (during_wait sched k).



(** ** Measures of a trace and of a session *)

Definition is_timeout (e : Event) : bool :=
  match e with
  | EvTimeout _ => true
  | _ => false
  end.

(** Back-off timers set so far. *)
Definition timers (w : World) : nat :=
  length (filter is_timeout (trace w)).

(** Milliseconds of back-off asked for by the timers of a trace. *)
Fixpoint delay_in (t : list Event) : Z :=
  match t with
  | [] => 0
  | EvTimeout ms :: rest => ms + delay_in rest
  | _ :: rest => delay_in rest
  end.

Definition delay (w : World) : Z := delay_in (trace w).

(** Origin and text of an entry, without its id and timestamp. *)
Definition said (m : Message) : bool * string := (isUser m, text m).

(** The transcript has a last entry and the assistant wrote it. *)
Definition ends_with_assistant (w : World) : Prop :=
  exists front a, messages w = front ++ [a] /\ isUser a = false.

(** [o] is a [sendMessage] whose text passes the blank guard. *)
Definition sends_text (o : Op) : bool :=
  match o with
  | OpSend txt _ => truthy_string (trim txt)
  | OpHost _ => false
  end.

Definition nonblank_sends (ops : list Op) : nat :=
  length (filter sends_text ops).

(** [o] neither is [clearMessages] nor has it run while a send is suspended. *)
Definition clear_free (o : Op) : Prop :=
  match o with
  | OpSend _ sched => ~ scheduled sched HClearMessages
  | OpHost h => h <> HClearMessages
  end.

(** [v] was passed to [updateApiFunction] by an operation of the session,
    between sends or while one was suspended. *)
Definition offered (ops : list Op) (v : ApiValue) : Prop :=
  exists o, In o ops /\
    match o with
    | OpSend _ sched => scheduled sched (HUpdateApiFunction v)
    | OpHost h => h = HUpdateApiFunction v
    end.

(** The transcript is a lone greeting, as [clearMessages] leaves it. *)
Definition just_greeted (w : World) : Prop :=
  exists g, messages w = [g] /\ id g = "1" /\ said g = (false, greetingText).

(** ** Blank input *)

(** [chars] cuts a string into its characters and loses no byte, so [trim]
    returns a stretch of the bytes it was given. *)
Lemma chars_keep_every_byte_upto (n : nat) :
  forall s, String.length s <= n -> string_of_chars (chars s) = s.
Proof.
  induction n as [ | n IH]; intros s Hlen.
  - destruct s; [reflexivity | simpl in Hlen; lia].
  - destruct s as [ | c1 r1]; [reflexivity | ].
    simpl in Hlen.
    assert (H1 : string_of_chars (chars r1) = r1) by (apply IH; lia).
    cbn [chars].
    destruct (N_of_ascii c1 <? 128)%N;
      [cbn [string_of_chars String.append]; now rewrite H1 | ].
    destruct r1 as [ | c2 r2]; [reflexivity | ].
    simpl in Hlen.
    assert (H2 : string_of_chars (chars r2) = r2) by (apply IH; lia).
    match goal with |- context [if ?b then _ else _] => destruct b end;
      [cbn [string_of_chars String.append]; now rewrite H2 | ].
    destruct r2 as [ | c3 r3];
      [unfold stray; cbn [string_of_chars String.append]; now rewrite H1 | ].
    simpl in Hlen.
    assert (H3 : string_of_chars (chars r3) = r3) by (apply IH; lia).
    match goal with |- context [if ?b then _ else _] => destruct b end;
      [cbn [string_of_chars String.append]; now rewrite H3 | ].
    destruct r3 as [ | c4 r4];
      [unfold stray; cbn [string_of_chars String.append]; now rewrite H1 | ].
    simpl in Hlen.
    assert (H4 : string_of_chars (chars r4) = r4) by (apply IH; lia).
    match goal with |- context [if ?b then _ else _] => destruct b end;
      [cbn [string_of_chars String.append]; now rewrite H4 | ].
    unfold stray; cbn [string_of_chars String.append]; now rewrite H1.
Qed.

Lemma chars_keep_every_byte (s : string) : string_of_chars (chars s) = s.
Proof. apply (chars_keep_every_byte_upto (String.length s)). apply Nat.le_refl. Qed.

Lemma dropWhile_nil_iff {A : Type} (p : A -> bool) (l : list A) :
  dropWhile p l = [] <-> forallb p l = true.
Proof.
  induction l as [ | x rest IH]; simpl; [split; reflexivity | ].
  destruct (p x); simpl; [exact IH | split; discriminate].
Qed.

Lemma dropWhile_stops {A : Type} (p : A -> bool) (l : list A) :
  forallb p (dropWhile p l) = true -> dropWhile p l = [].
Proof.
  induction l as [ | x rest IH]; simpl; [reflexivity | ].
  destruct (p x) eqn:Hx; [exact IH | ].
  simpl. rewrite Hx. discriminate.
Qed.

Lemma forallb_rev {A : Type} (p : A -> bool) (l : list A) :
  forallb p (rev l) = forallb p l.
Proof.
  induction l as [ | x rest IH]; [reflexivity | ].
  simpl. rewrite forallb_app, IH. simpl. rewrite andb_true_r. apply andb_comm.
Qed.

Lemma string_of_chars_empty (l : list Char) :
  string_of_chars l = "" -> l = [].
Proof. destruct l as [ | [[cp c] more] rest]; [reflexivity | discriminate]. Qed.

(** [!text.trim()] holds exactly for the strings made of white space. *)
Lemma trim_empty_iff (s : string) :
  trim s = "" <-> whitespace_only s = true.
Proof.
  unfold trim, whitespace_only. split.
  - intro Hempty. apply string_of_chars_empty in Hempty.
    assert (Hrev : dropWhile white (rev (dropWhile white (chars s))) = [])
      by (rewrite <- (rev_involutive (dropWhile white _)); rewrite Hempty;
          reflexivity).
    apply dropWhile_nil_iff in Hrev. rewrite forallb_rev in Hrev.
    apply dropWhile_stops in Hrev. now apply dropWhile_nil_iff.
  - intro Hwhite. apply dropWhile_nil_iff in Hwhite. rewrite Hwhite.
    reflexivity.
Qed.

Example trim_strips_both_ends : trim "  I feel anxious  " = "I feel anxious".
Proof. reflexivity. Qed.

Example trim_of_tab_and_line_feed : trim (bytes [9; 10; 32]) = "".
Proof. reflexivity. Qed.

(** U+3000 (bytes E3 80 80) and U+00A0 (C2 A0) before a word, U+2003
    (E2 80 83) and U+FEFF (EF BB BF) after it. *)
Example trim_strips_white_space_beyond_ASCII :
  trim (bytes [227; 128; 128; 194; 160] ++ "hi"
        ++ bytes [226; 128; 131; 239; 187; 191])%string = "hi".
Proof. reflexivity. Qed.

Example ideographic_space_is_blank :
  trim (bytes [227; 128; 128]) = "" /\
  whitespace_only (bytes [227; 128; 128]) = true.
Proof. split; reflexivity. Qed.

(** Each of the 25 code points that [trim] strips, in UTF-8, is blank. *)
Example every_stripped_code_point_is_blank :
  forallb (fun l => whitespace_only (bytes l))
    [[9]; [10]; [11]; [12]; [13]; [32]; [194; 160]; [225; 154; 128];
     [226; 128; 128]; [226; 128; 129]; [226; 128; 130]; [226; 128; 131];
     [226; 128; 132]; [226; 128; 133]; [226; 128; 134]; [226; 128; 135];
     [226; 128; 136]; [226; 128; 137]; [226; 128; 138];
     [226; 128; 168]; [226; 128; 169]; [226; 128; 175]; [226; 129; 159];
     [227; 128; 128]; [239; 187; 191]] = true.
Proof. reflexivity. Qed.

(** An accented letter (U+00E9, bytes C3 A9) and an emoji (U+1F600, bytes
    F0 9F 98 80) are kept, and so is the white space inside the text; a
    zero-width space (U+200B, bytes E2 80 8B) is no white space. *)
Example trim_keeps_the_text :
  trim (" " ++ bytes [195; 169; 32; 240; 159; 152; 128] ++ " ")%string
  = bytes [195; 169; 32; 240; 159; 152; 128] /\
  trim (bytes [226; 128; 139]) = bytes [226; 128; 139].
Proof. split; reflexivity. Qed.

(** ** How the monadic operations run *)

Lemma host_op_normal (h : HostOp) (w : World) :
  host_op h w = (Normal tt, after (host_op h) w).
Proof.
  destruct h as [ | p | v]; try reflexivity.
  unfold after; simpl. unfold updateApiFunction.
  destruct (is_function v); reflexivity.
Qed.

Lemma suspended_normal (hs : list HostOp) (w : World) :
  suspended hs w = (Normal tt, after (suspended hs) w).
Proof.
  revert w. induction hs as [ | h rest IH]; intro w; [reflexivity | ].
  unfold after. simpl. unfold bind. rewrite host_op_normal.
  rewrite IH. reflexivity.
Qed.

Lemma suspended_cons (h : HostOp) (rest : list HostOp) (w : World) :
  after (suspended (h :: rest)) w = after (suspended rest) (after (host_op h) w).
Proof.
  unfold after at 1. simpl. unfold bind. rewrite host_op_normal. reflexivity.
Qed.

Lemma await_call_run behaviour pending userMessage prompt (w : World) :
  await_call behaviour pending userMessage prompt w =
  (match behaviour (invocations w) userMessage prompt with
   | Resolved reply => Normal reply
   | Rejected error => Throw error
   end,
   after (suspended pending) (after (emit (EvInvoke userMessage prompt)) w)).
Proof.
  unfold await_call, bind. simpl. rewrite suspended_normal.
  destruct (behaviour (invocations w) userMessage prompt); reflexivity.
Qed.

Lemma sleep_run ms pending (w : World) :
  sleep ms pending w =
  (Normal tt, after (suspended pending) (after (emit (EvTimeout ms)) w)).
Proof.
  unfold sleep, bind. simpl. rewrite suspended_normal. reflexivity.
Qed.

Lemma callApiWithRetry_run cl sched userMessage retryCount maxRetries w :
  callApiWithRetry cl sched userMessage retryCount maxRetries w =
  match captured_apiFunction cl with
  | JsOther _ => (Normal degradedText, after (console LogNotInitialized) w)
  | JsFunction behaviour =>
      match behaviour (invocations w) userMessage (captured_systemPrompt cl) with
      | Resolved reply => (Normal reply, called cl sched userMessage retryCount w)
      | Rejected error =>
          if lt_dec retryCount maxRetries
          then callApiWithRetry cl sched userMessage (S retryCount) maxRetries
                 (backed_off sched retryCount maxRetries error
                    (called cl sched userMessage retryCount w))
          else (Throw error,
                after (console (LogApiCallError error))
                      (called cl sched userMessage retryCount w))
      end
  end.
Proof.
  rewrite callApiWithRetry_equation_1. unfold try_catch.
  destruct (captured_apiFunction cl) as [behaviour | t]; [ | reflexivity].
  rewrite await_call_run. fold (called cl sched userMessage retryCount w).
  destruct (behaviour (invocations w) userMessage (captured_systemPrompt cl))
    as [reply | error]; [reflexivity | ].
  unfold bind at 1.
  change (console (LogApiCallError error) ?x)
    with (Normal tt, after (console (LogApiCallError error)) x).
  cbv beta iota.
  destruct (lt_dec retryCount maxRetries); [ | reflexivity].
  unfold bind.
  change (console (LogRetrying ?a ?b) ?x)
    with (Normal tt, after (console (LogRetrying a b)) x).
  cbv beta iota. rewrite sleep_run.
  fold (backed_off sched retryCount maxRetries error
          (called cl sched userMessage retryCount w)).
  replace (retryCount + 1) with (S retryCount) by lia.
  reflexivity.
Qed.

(** ** What the retry loop leaves alone *)

Lemma suspended_preserves (P : World -> Prop) (hs : list HostOp) :
  (forall h w, In h hs -> P w -> P (after (host_op h) w)) ->
  forall w, P w -> P (after (suspended hs) w).
Proof.
  induction hs as [ | h rest IH]; intros Hhost w Hw; [exact Hw | ].
  rewrite suspended_cons. apply IH.
  - intros h' w' Hin. apply Hhost. now right.
  - apply Hhost; [now left | exact Hw].
Qed.

(** An invariant kept by the events of the loop and by the host's scheduled
    operations holds when [callApiWithRetry] settles, whichever way. *)
Lemma callApiWithRetry_preserves (P : World -> Prop) cl sched userMessage maxRetries :
  (forall e w, retry_event cl userMessage e -> P w -> P (after (emit e) w)) ->
  (forall h w, scheduled sched h -> P w -> P (after (host_op h) w)) ->
  forall retryCount w,
    P w -> P (after (callApiWithRetry cl sched userMessage retryCount maxRetries) w).
Proof.
  intros Hemit Hhost retryCount.
  remember (maxRetries - retryCount) as n eqn:Hn.
  revert retryCount Hn.
  induction n as [ | n IH]; intros retryCount Hn w Hw;
    unfold after; rewrite callApiWithRetry_run;
    destruct (captured_apiFunction cl) as [behaviour | t] eqn:Hapi.
  all: try (simpl; apply (Hemit (EvConsole LogNotInitialized)); [exact I | exact Hw]).
  all: assert (Hcalled : P (called cl sched userMessage retryCount w))
    by (unfold called; apply suspended_preserves;
        [ intros h w' Hin; apply Hhost; exists retryCount; now left
        | apply Hemit; [simpl; split; reflexivity | exact Hw] ]).
  all: destruct (behaviour (invocations w) userMessage (captured_systemPrompt cl))
    as [reply | error]; [exact Hcalled | ].
  all: destruct (lt_dec retryCount maxRetries) as [Hlt | Hge];
    try (exfalso; lia);
    try (simpl; apply (Hemit (EvConsole (LogApiCallError error)));
         [exact I | exact Hcalled]).
  apply (IH (S retryCount)); [lia | ].
  unfold backed_off. apply suspended_preserves.
  - intros h w' Hin. apply Hhost. exists retryCount. now right.
  - apply (Hemit (EvTimeout _)); [exact I | ].
    apply (Hemit (EvConsole _)); [exact I | ].
    apply (Hemit (EvConsole _)); [exact I | exact Hcalled].
Qed.

(** The host's operations write nothing but console lines to the trace. *)
Lemma host_op_trace (keep : Event -> bool) (h : HostOp) (w : World) :
  silent keep ->
  filter keep (trace (after (host_op h) w)) = filter keep (trace w).
Proof.
  intro Hsilent. destruct h as [ | p | v]; try reflexivity.
  unfold after; simpl. unfold updateApiFunction.
  destruct (is_function v); [reflexivity | ].
  simpl. rewrite filter_app. simpl. rewrite Hsilent. apply app_nil_r.
Qed.

Lemma suspended_trace (keep : Event -> bool) (hs : list HostOp) (w : World) :
  silent keep ->
  filter keep (trace (after (suspended hs) w)) = filter keep (trace w).
Proof.
  intro Hsilent.
  apply (suspended_preserves
           (fun w' => filter keep (trace w') = filter keep (trace w))).
  - intros h w' _ Hw'. rewrite host_op_trace; assumption.
  - reflexivity.
Qed.

Lemma emit_trace (e : Event) (w : World) :
  trace (after (emit e) w) = trace w ++ [e].
Proof. reflexivity. Qed.

Lemma called_trace (keep : Event -> bool) cl sched userMessage retryCount w :
  silent keep ->
  filter keep (trace (called cl sched userMessage retryCount w)) =
  filter keep (trace w)
    ++ filter keep [EvInvoke userMessage (captured_systemPrompt cl)].
Proof.
  intro Hsilent. unfold called. rewrite suspended_trace by assumption.
  rewrite emit_trace. apply filter_app.
Qed.

Lemma backed_off_trace (keep : Event -> bool) sched retryCount maxRetries error w :
  silent keep ->
  filter keep (trace (backed_off sched retryCount maxRetries error w)) =
  filter keep (trace w)
    ++ filter keep [EvTimeout (1000 * 2 ^ Z.of_nat retryCount)].
Proof.
  intro Hsilent. unfold backed_off. rewrite suspended_trace by assumption.
  rewrite emit_trace, filter_app. unfold console. rewrite !emit_trace.
  rewrite !filter_app. simpl. rewrite !Hsilent.
  rewrite !app_nil_r. reflexivity.
Qed.

Lemma is_invoke_silent : silent is_invoke.
Proof. intro l. reflexivity. Qed.

Lemma observable_silent : silent observable.
Proof. intro l. reflexivity. Qed.

Lemma is_add_silent : silent is_add.
Proof. intro l. reflexivity. Qed.

Lemma called_invocations cl sched userMessage retryCount w :
  invocations (called cl sched userMessage retryCount w) = S (invocations w).
Proof.
  unfold invocations. rewrite called_trace by apply is_invoke_silent.
  rewrite length_app. simpl. lia.
Qed.

Lemma backed_off_invocations sched retryCount maxRetries error w :
  invocations (backed_off sched retryCount maxRetries error w) = invocations w.
Proof.
  unfold invocations. rewrite backed_off_trace by apply is_invoke_silent.
  simpl. rewrite app_nil_r. reflexivity.
Qed.

(** ** Outcomes of the retry loop *)

Lemma fails_tail behaviour base n userMessage prompt :
  fails behaviour base (S n) userMessage prompt ->
  fails behaviour (S base) n userMessage prompt.
Proof.
  intros Hfails k Hk. destruct (Hfails (S k)) as [error He]; [lia | ].
  exists error. rewrite <- He. f_equal. lia.
Qed.

Lemma fails_head behaviour base n userMessage prompt :
  fails behaviour base (S n) userMessage prompt ->
  exists error, behaviour base userMessage prompt = Rejected error.
Proof.
  intro Hfails. destruct (Hfails 0) as [error He]; [lia | ].
  exists error. rewrite <- He. f_equal. lia.
Qed.

Lemma retried_trace (keep : Event -> bool) cl sched userMessage
    retryCount maxRetries error w rest :
  silent keep ->
  filter keep
    (trace (backed_off sched retryCount maxRetries error
              (called cl sched userMessage retryCount w)))
    ++ filter keep rest =
  filter keep (trace w)
    ++ filter keep (EvInvoke userMessage (captured_systemPrompt cl)
                    :: EvTimeout (1000 * 2 ^ Z.of_nat retryCount) :: rest).
Proof.
  intro Hsilent.
  rewrite backed_off_trace, called_trace by assumption.
  rewrite <- !app_assoc, <- !filter_app. reflexivity.
Qed.

(** The guard: a responder that is no function gives the degraded reply at
    once, with one console line and nothing else. *)
Lemma callApiWithRetry_not_function cl sched userMessage retryCount maxRetries w t :
  captured_apiFunction cl = JsOther t ->
  callApiWithRetry cl sched userMessage retryCount maxRetries w =
  (Normal degradedText, after (console LogNotInitialized) w).
Proof.
  intro Hapi. rewrite callApiWithRetry_run, Hapi. reflexivity.
Qed.

(** [j] failures, then a reply, within the retry budget. *)
Lemma callApiWithRetry_succeeds cl sched userMessage maxRetries behaviour reply :
  captured_apiFunction cl = JsFunction behaviour ->
  forall j retryCount w,
    retryCount + j <= maxRetries ->
    fails behaviour (invocations w) j userMessage (captured_systemPrompt cl) ->
    behaviour (invocations w + j) userMessage (captured_systemPrompt cl)
      = Resolved reply ->
    fst (callApiWithRetry cl sched userMessage retryCount maxRetries w)
      = Normal reply /\
    forall keep, silent keep ->
      filter keep
        (trace (after (callApiWithRetry cl sched userMessage retryCount maxRetries) w))
      = filter keep (trace w)
        ++ filter keep
             (retry_script userMessage (captured_systemPrompt cl) retryCount j).
Proof.
  intros Hapi j.
  induction j as [ | j IH]; intros retryCount w Hbudget Hfails Hreply;
    unfold after; rewrite callApiWithRetry_run, Hapi.
  - rewrite Nat.add_0_r in Hreply. rewrite Hreply. simpl. split; [reflexivity | ].
    intros keep Hsilent. now apply called_trace.
  - destruct (fails_head _ _ _ _ _ Hfails) as [error He]. rewrite He.
    destruct (lt_dec retryCount maxRetries) as [_ | Hge]; [ | exfalso; lia].
    set (w2 := backed_off sched retryCount maxRetries error
                 (called cl sched userMessage retryCount w)).
    assert (Hinv : invocations w2 = S (invocations w))
      by (unfold w2; rewrite backed_off_invocations; apply called_invocations).
    destruct (IH (S retryCount) w2) as [Hres Htrace].
    + lia.
    + rewrite Hinv. now apply fails_tail.
    + rewrite Hinv. rewrite <- Hreply. f_equal. lia.
    + split; [exact Hres | ].
      intros keep Hsilent. unfold after in Htrace.
      rewrite (Htrace keep Hsilent). unfold w2.
      now apply retried_trace.
Qed.

(** Failures through the whole budget: the last error is thrown. *)
Lemma callApiWithRetry_exhausted cl sched userMessage maxRetries behaviour :
  captured_apiFunction cl = JsFunction behaviour ->
  forall n retryCount w,
    retryCount + n = maxRetries ->
    fails behaviour (invocations w) (S n) userMessage (captured_systemPrompt cl) ->
    (exists error,
       fst (callApiWithRetry cl sched userMessage retryCount maxRetries w)
         = Throw error) /\
    forall keep, silent keep ->
      filter keep
        (trace (after (callApiWithRetry cl sched userMessage retryCount maxRetries) w))
      = filter keep (trace w)
        ++ filter keep
             (retry_script userMessage (captured_systemPrompt cl) retryCount n).
Proof.
  intros Hapi n.
  induction n as [ | n IH]; intros retryCount w Hbudget Hfails;
    unfold after; rewrite callApiWithRetry_run, Hapi;
    destruct (fails_head _ _ _ _ _ Hfails) as [error He]; rewrite He.
  - destruct (lt_dec retryCount maxRetries) as [Hlt | _]; [exfalso; lia | ].
    simpl. split; [now exists error | ].
    intros keep Hsilent. rewrite filter_app. simpl. rewrite Hsilent, app_nil_r.
    now apply called_trace.
  - destruct (lt_dec retryCount maxRetries) as [_ | Hge]; [ | exfalso; lia].
    set (w2 := backed_off sched retryCount maxRetries error
                 (called cl sched userMessage retryCount w)).
    assert (Hinv : invocations w2 = S (invocations w))
      by (unfold w2; rewrite backed_off_invocations; apply called_invocations).
    destruct (IH (S retryCount) w2) as [Hres Htrace].
    + lia.
    + rewrite Hinv. now apply fails_tail.
    + split; [exact Hres | ].
      intros keep Hsilent. unfold after in Htrace.
      rewrite (Htrace keep Hsilent). unfold w2.
      now apply retried_trace.
Qed.

(** ** How [addMessage] and [sendMessage] run *)

Lemma addMessage_run (text : string) (isUser : bool) (w : World) :
  addMessage text isUser w =
  (Normal (new_message text isUser w), appended (new_message text isUser w) w).
Proof. reflexivity. Qed.

Lemma sendMessage_of_run cl sched text w :
  sendMessage_of cl sched text w =
  if negb (truthy_string (trim text)) then (Normal None, w)
  else
    let u := new_message text true w in
    match callApiWithRetry cl sched text 0 3
            (after (setIsLoading true) (appended u w)) with
    | (Normal response, w3) =>
        (Normal (Some u),
         after (setIsLoading false)
           (appended (new_message response false w3) w3))
    | (Throw error, w3) =>
        let w4 := after (console (LogFailedResponse error)) w3 in
        (Normal (Some u),
         after (setIsLoading false)
           (appended (new_message apologyText false w4) w4))
    end.
Proof.
  unfold sendMessage_of.
  destruct (negb (truthy_string (trim text))); [reflexivity | ].
  unfold bind, try_finally, try_catch. rewrite addMessage_run.
  cbv zeta. simpl setIsLoading.
  change (snd (Normal tt, ?x)) with x.
  unfold after, setIsLoading, modify. simpl.
  match goal with
  | |- context [callApiWithRetry ?c ?s ?t ?r ?m ?x] =>
      destruct (callApiWithRetry c s t r m x) as [[response | error] w3]
  end; reflexivity.
Qed.

Lemma trim_nonblank (txt : string) :
  trim txt <> "" -> negb (truthy_string (trim txt)) = false.
Proof. destruct (trim txt); [congruence | reflexivity]. Qed.

Lemma trim_blank (txt : string) :
  trim txt = "" -> negb (truthy_string (trim txt)) = true.
Proof. intro H. rewrite H. reflexivity. Qed.

(** The world in which the retry loop of a send starts. *)
Lemma sendMessage_settled sched txt w :
  trim txt <> "" ->
  sendMessage sched txt w =
  (Normal (Some (new_message txt true w)),
   after (setIsLoading false)
     (match fst (callApiWithRetry (render w) sched txt 0 3 (sending txt w)) with
      | Normal response =>
          let w3 := after (callApiWithRetry (render w) sched txt 0 3) (sending txt w) in
          appended (new_message response false w3) w3
      | Throw error =>
          let w4 := after (console (LogFailedResponse error))
                      (after (callApiWithRetry (render w) sched txt 0 3)
                             (sending txt w)) in
          appended (new_message apologyText false w4) w4
      end)).
Proof.
  intro Hnonblank. unfold sendMessage. rewrite sendMessage_of_run.
  rewrite (trim_nonblank _ Hnonblank). cbv zeta.
  unfold sending, after.
  match goal with
  | |- context [callApiWithRetry ?c ?s ?t ?r ?m ?x] =>
      destruct (callApiWithRetry c s t r m x) as [[response | error] w3]
  end; reflexivity.
Qed.

Lemma added_in_app (t1 t2 : list Event) :
  added_in (t1 ++ t2) = added_in t1 ++ added_in t2.
Proof.
  induction t1 as [ | e t1 IH]; [reflexivity | ].
  destruct e; simpl; rewrite IH; reflexivity.
Qed.

Lemma added_in_filter (t : list Event) :
  added_in (filter is_add t) = added_in t.
Proof.
  induction t as [ | e t IH]; [reflexivity | ].
  destruct e; simpl; rewrite IH; reflexivity.
Qed.

Lemma host_op_added (h : HostOp) (w : World) :
  added (after (host_op h) w) = added w.
Proof.
  unfold added. rewrite <- added_in_filter.
  rewrite host_op_trace by apply is_add_silent. apply added_in_filter.
Qed.

Lemma callApiWithRetry_added cl sched userMessage retryCount maxRetries w :
  added (after (callApiWithRetry cl sched userMessage retryCount maxRetries) w)
  = added w.
Proof.
  apply (callApiWithRetry_preserves (fun w' => added w' = added w)).
  - intros e w' He Hw'. unfold added. rewrite emit_trace, added_in_app.
    fold (added w'). rewrite Hw'.
    destruct e; simpl in *; try apply app_nil_r. contradiction.
  - intros h w' _ Hw'. rewrite host_op_added. exact Hw'.
  - reflexivity.
Qed.

Lemma callApiWithRetry_messages cl sched userMessage retryCount maxRetries w :
  ~ scheduled sched HClearMessages ->
  messages (after (callApiWithRetry cl sched userMessage retryCount maxRetries) w)
  = messages w.
Proof.
  intro Hnoclear.
  apply (callApiWithRetry_preserves (fun w' => messages w' = messages w)).
  - intros e w' _ Hw'. exact Hw'.
  - intros h w' Hsched Hw'. destruct h as [ | p | v].
    + contradiction.
    + exact Hw'.
    + unfold after. simpl. unfold updateApiFunction.
      destruct (is_function v); exact Hw'.
  - reflexivity.
Qed.

Lemma added_appended (m : Message) (w : World) :
  added (appended m w) = added w ++ [m].
Proof. unfold added. simpl. apply added_in_app. Qed.

Lemma added_sending (txt : string) (w : World) :
  added (sending txt w) = added w ++ [new_message txt true w].
Proof. unfold added. simpl. apply added_in_app. Qed.

Lemma useChat_messages (options : ChatOptions) :
  messages (useChat options) =
  match initialMessages options with
  | Some supplied => supplied
  | None => [ {| id := "1"; text := greetingText; isUser := false;
                 timestamp := toISOString (clock 0) |} ]
  end.
Proof.
  unfold useChat, mount, effects, after, bind.
  destruct (initialMessages options) as [supplied | ];
    (destruct (opt_apiFunction options) as [f | ];
     [destruct (truthy_api f) | ]);
    (destruct (opt_systemPrompt options) as [p | ];
     [destruct (truthy_string p) | ]); reflexivity.
Qed.

(** ** The claims *)

(** C1.  For every string [txt]: when [txt] trimmed is not empty,
    [sendMessage] returns the user's entry, has appended exactly that entry
    and then exactly one assistant entry (the [addMessage] calls on the
    trace), whichever way the retry loop settled, and leaves the loading
    flag false; the assistant's entry is the last of the transcript, and
    the two are its two new last entries unless the host cleared it
    meanwhile.  When [txt] is empty or made of white space only, which
    are the strings whose [trim] is empty, it returns nothing and changes
    nothing. *)
Theorem sendMessage_appends_one_user_and_one_assistant_entry
    (sched : Schedule) (txt : string) (w : World) :
  (trim txt <> "" ->
   exists u a : Message,
     sendMessage sched txt w = (Normal (Some u), after (sendMessage sched txt) w) /\
     added (after (sendMessage sched txt) w) = added w ++ [u; a] /\
     text u = txt /\ isUser u = true /\ isUser a = false /\
     (~ scheduled sched HClearMessages ->
      messages (after (sendMessage sched txt) w) = messages w ++ [u; a]) /\
     isLoading (after (sendMessage sched txt) w) = false /\
     (exists front, messages (after (sendMessage sched txt) w) = front ++ [a]))
  /\
  (whitespace_only txt = true -> sendMessage sched txt w = (Normal None, w))
  /\
  (trim txt = "" <-> whitespace_only txt = true).
Proof.
  split; [ | split; [ | apply trim_empty_iff]].
  - intro Hnonblank. exists (new_message txt true w).
    unfold after at 1 2 3 4 5. rewrite (sendMessage_settled _ _ _ Hnonblank).
    simpl snd.
    set (w3 := after (callApiWithRetry (render w) sched txt 0 3) (sending txt w)).
    assert (Hadded : added w3 = added w ++ [new_message txt true w])
      by (unfold w3; rewrite callApiWithRetry_added; apply added_sending).
    assert (Hmessages : ~ scheduled sched HClearMessages ->
                        messages w3 = messages w ++ [new_message txt true w])
      by (intro Hno; unfold w3; rewrite callApiWithRetry_messages by assumption;
          reflexivity).
    destruct (fst (callApiWithRetry (render w) sched txt 0 3 (sending txt w)))
      as [response | error].
    + exists (new_message response false w3).
      split; [reflexivity | ]. split.
      { change (added (appended (new_message response false w3) w3)
                = added w ++ [new_message txt true w; new_message response false w3]).
        rewrite added_appended, Hadded, <- app_assoc. reflexivity. }
      do 3 (split; [reflexivity | ]). split.
      { intro Hno. simpl. rewrite (Hmessages Hno), <- app_assoc. reflexivity. }
      split; [reflexivity | ]. exists (messages w3). reflexivity.
    + set (w4 := after (console (LogFailedResponse error)) w3).
      exists (new_message apologyText false w4).
      split; [reflexivity | ]. split.
      { change (added (appended (new_message apologyText false w4) w4)
                = added w ++ [new_message txt true w; new_message apologyText false w4]).
        rewrite added_appended. unfold w4, added, console.
        rewrite emit_trace, added_in_app.
        fold (added w3). rewrite Hadded. simpl. rewrite app_nil_r, <- app_assoc.
        reflexivity. }
      do 3 (split; [reflexivity | ]). split.
      { intro Hno. simpl. rewrite (Hmessages Hno), <- app_assoc. reflexivity. }
      split; [reflexivity | ]. exists (messages w3). reflexivity.
  - intro Hblank. apply trim_empty_iff in Hblank.
    unfold sendMessage. rewrite sendMessage_of_run.
    rewrite (trim_blank _ Hblank). reflexivity.
Qed.

(** C2.  [sendMessage] always completes normally: no failure of the
    responder leaves it.  When the retry loop gives up and throws,
    [sendMessage] logs the failure, appends an assistant entry with the
    fixed apology as the last entry, and the finalizer still clears the
    loading flag. *)
Theorem sendMessage_absorbs_every_failure
    (sched : Schedule) (txt : string) (w : World) :
  (exists result,
     sendMessage sched txt w = (Normal result, after (sendMessage sched txt) w)) /\
  (trim txt <> "" ->
   forall error,
     fst (callApiWithRetry (render w) sched txt 0 3 (sending txt w)) = Throw error ->
     exists a : Message,
       messages (after (sendMessage sched txt) w) =
         messages (after (callApiWithRetry (render w) sched txt 0 3) (sending txt w))
         ++ [a] /\
       text a = apologyText /\ isUser a = false /\
       In (EvConsole (LogFailedResponse error))
          (trace (after (sendMessage sched txt) w)) /\
       isLoading (after (sendMessage sched txt) w) = false).
Proof.
  split.
  - unfold after, sendMessage. rewrite sendMessage_of_run.
    destruct (negb (truthy_string (trim txt))); [now exists None | ].
    cbv zeta.
    destruct (callApiWithRetry (render w) sched txt 0 3 _) as [[response | e] w3];
      eexists; reflexivity.
  - intros Hnonblank error Hthrow.
    unfold after at 1 3 4. rewrite (sendMessage_settled _ _ _ Hnonblank).
    rewrite Hthrow. simpl snd.
    set (w3 := after (callApiWithRetry (render w) sched txt 0 3) (sending txt w)).
    set (w4 := after (console (LogFailedResponse error)) w3).
    exists (new_message apologyText false w4).
    repeat split; try reflexivity.
    simpl. apply in_or_app. left. apply in_or_app. right. now left.
Qed.

(** C8.  Whatever the transcript was, [clearMessages] leaves exactly one
    entry: the assistant's fixed greeting, stamped with a clock reading
    taken by this call; the loading flag, the system prompt and the
    responder stay as they were. *)
Theorem clearMessages_resets_to_the_greeting (w : World) :
  clearMessages w = (Normal tt, after clearMessages w) /\
  messages (after clearMessages w) =
    [ {| id := "1"; text := greetingText; isUser := false;
         timestamp := toISOString (clock (reads w)) |} ] /\
  reads (after clearMessages w) = S (reads w) /\
  isLoading (after clearMessages w) = isLoading w /\
  systemPrompt (after clearMessages w) = systemPrompt w /\
  apiFunction (after clearMessages w) = apiFunction w.
Proof. repeat split. Qed.


(** C10.  The greeting is seeded only when [initialMessages] is absent: a
    supplied list is the initial transcript as it is, so an empty list
    gives an empty initial transcript. *)
Theorem supplied_initialMessages_are_the_initial_transcript
    (options : ChatOptions) :
  (forall supplied,
     initialMessages options = Some supplied ->
     messages (useChat options) = supplied) /\
  (initialMessages options = Some [] -> messages (useChat options) = []) /\
  (initialMessages options = None ->
   messages (useChat options) =
     [ {| id := "1"; text := greetingText; isUser := false;
          timestamp := toISOString (clock 0) |} ]).
Proof.
  pose proof (useChat_messages options) as Hinit.
  repeat split.
  - intros supplied Hsome. rewrite Hinit, Hsome. reflexivity.
  - intro Hsome. rewrite Hinit, Hsome. reflexivity.
  - intro Hnone. rewrite Hinit, Hnone. reflexivity.
Qed.

Lemma retry_script_default (userMessage prompt : string) :
  retry_script userMessage prompt 0 3 =
  [EvInvoke userMessage prompt; EvTimeout 1000;
   EvInvoke userMessage prompt; EvTimeout 2000;
   EvInvoke userMessage prompt; EvTimeout 4000;
   EvInvoke userMessage prompt].
Proof. reflexivity. Qed.

Lemma retry_script_observable userMessage prompt retryCount n :
  filter observable (retry_script userMessage prompt retryCount n)
  = retry_script userMessage prompt retryCount n.
Proof.
  revert retryCount. induction n as [ | n IH]; intro retryCount; [reflexivity | ].
  simpl. rewrite IH. reflexivity.
Qed.

Lemma retry_script_invocations userMessage prompt retryCount n :
  length (filter is_invoke (retry_script userMessage prompt retryCount n)) = S n.
Proof.
  revert retryCount. induction n as [ | n IH]; intro retryCount; [reflexivity | ].
  simpl. rewrite IH. reflexivity.
Qed.

Lemma sending_invocations (txt : string) (w : World) :
  invocations (sending txt w) = invocations w.
Proof.
  unfold invocations. simpl. rewrite filter_app. simpl.
  rewrite app_nil_r. reflexivity.
Qed.

(** C3.  A responder that fails on every invocation is invoked exactly
    four times by one [sendMessage], with timers of 1000, 2000 and 4000
    milliseconds before the second, third and fourth invocation, and only
    after the fourth failure is the apology appended: it is then the last
    entry of the transcript, right after the user's entry unless the host
    cleared the transcript meanwhile. *)
Theorem always_failing_responder_is_invoked_four_times
    (behaviour : nat -> string -> string -> Outcome)
    (sched : Schedule) (txt : string) (w : World) :
  apiFunction w = JsFunction behaviour ->
  trim txt <> "" ->
  (forall k m p, exists error, behaviour k m p = Rejected error) ->
  exists u a : Message,
    filter observable (trace (after (sendMessage sched txt) w)) =
      filter observable (trace w) ++
      [EvAddMessage u;
       EvInvoke txt (systemPrompt w); EvTimeout 1000;
       EvInvoke txt (systemPrompt w); EvTimeout 2000;
       EvInvoke txt (systemPrompt w); EvTimeout 4000;
       EvInvoke txt (systemPrompt w);
       EvAddMessage a] /\
    invocations (after (sendMessage sched txt) w) = invocations w + 4 /\
    text u = txt /\ isUser u = true /\
    text a = apologyText /\ isUser a = false /\
    (exists front, messages (after (sendMessage sched txt) w) = front ++ [a]) /\
    (~ scheduled sched HClearMessages ->
     messages (after (sendMessage sched txt) w) = messages w ++ [u; a]).
Proof.
  intros Hapi Hnonblank Hfail.
  destruct (callApiWithRetry_exhausted (render w) sched txt 3 behaviour Hapi
              3 0 (sending txt w)) as [[error Hthrow] Htrace].
  - reflexivity.
  - intros k _. apply Hfail.
  - exists (new_message txt true w).
    unfold after at 1 2 3 4. rewrite (sendMessage_settled _ _ _ Hnonblank).
    rewrite Hthrow. simpl snd. cbv zeta.
    set (w3 := after (callApiWithRetry (render w) sched txt 0 3) (sending txt w))
      in *.
    set (w4 := after (console (LogFailedResponse error)) w3).
    exists (new_message apologyText false w4).
    assert (Hall : forall keep, silent keep ->
              filter keep (trace (after (setIsLoading false)
                                    (appended (new_message apologyText false w4) w4)))
              = filter keep (trace w)
                ++ filter keep
                     ([EvAddMessage (new_message txt true w)]
                      ++ retry_script txt (systemPrompt w) 0 3
                      ++ [EvAddMessage (new_message apologyText false w4)])).
    { intros keep Hsilent.
      change (filter keep ((trace w3 ++ [EvConsole (LogFailedResponse error)])
                           ++ [EvAddMessage (new_message apologyText false w4)])
              = filter keep (trace w)
                ++ filter keep
                     ([EvAddMessage (new_message txt true w)]
                      ++ retry_script txt (systemPrompt w) 0 3
                      ++ [EvAddMessage (new_message apologyText false w4)])).
      rewrite !filter_app. rewrite (Htrace keep Hsilent).
      change (trace (sending txt w))
        with (trace w ++ [EvAddMessage (new_message txt true w)]).
      rewrite filter_app. simpl (filter keep [EvConsole _]).
      rewrite Hsilent, app_nil_r, <- !app_assoc. reflexivity. }
    split.
    { rewrite (Hall observable observable_silent).
      rewrite retry_script_default. reflexivity. }
    split.
    { unfold invocations. rewrite (Hall is_invoke is_invoke_silent).
      rewrite retry_script_default, length_app. simpl. lia. }
    do 4 (split; [reflexivity | ]). split.
    { exists (messages w3). reflexivity. }
    intro Hno.
    change (messages w3 ++ [new_message apologyText false w4]
            = messages w ++ [new_message txt true w;
                             new_message apologyText false w4]).
    unfold w3. rewrite callApiWithRetry_messages by assumption.
    change (messages (sending txt w))
      with (messages w ++ [new_message txt true w]).
    rewrite <- app_assoc. reflexivity.
Qed.

(** C4.  When the first [N - 1] invocations of a send fail and the [N]-th
    replies, for [N] from 1 to 4, the send invokes the responder exactly
    [N] times and the assistant entry it appends carries that reply: it is
    then the last entry of the transcript, right after the user's entry
    unless the host cleared the transcript meanwhile. *)
Theorem responder_succeeding_on_its_Nth_invocation
    (behaviour : nat -> string -> string -> Outcome)
    (sched : Schedule) (txt : string) (w : World) (N : nat) (reply : string) :
  apiFunction w = JsFunction behaviour ->
  trim txt <> "" ->
  1 <= N <= 4 ->
  fails behaviour (invocations w) (N - 1) txt (systemPrompt w) ->
  behaviour (invocations w + (N - 1)) txt (systemPrompt w) = Resolved reply ->
  exists u a : Message,
    invocations (after (sendMessage sched txt) w) = invocations w + N /\
    filter observable (trace (after (sendMessage sched txt) w)) =
      filter observable (trace w)
      ++ [EvAddMessage u]
      ++ retry_script txt (systemPrompt w) 0 (N - 1)
      ++ [EvAddMessage a] /\
    added (after (sendMessage sched txt) w) = added w ++ [u; a] /\
    text u = txt /\ isUser u = true /\
    text a = reply /\ isUser a = false /\
    (exists front, messages (after (sendMessage sched txt) w) = front ++ [a]) /\
    (~ scheduled sched HClearMessages ->
     messages (after (sendMessage sched txt) w) = messages w ++ [u; a]).
Proof.
  intros Hapi Hnonblank HN Hfails Hreply.
  destruct (callApiWithRetry_succeeds (render w) sched txt 3 behaviour reply Hapi
              (N - 1) 0 (sending txt w)) as [Hres Htrace].
  - lia.
  - rewrite sending_invocations. exact Hfails.
  - rewrite sending_invocations. exact Hreply.
  - exists (new_message txt true w).
    unfold after at 1 2 3 4 5. rewrite (sendMessage_settled _ _ _ Hnonblank).
    rewrite Hres. simpl snd. cbv zeta.
    set (w3 := after (callApiWithRetry (render w) sched txt 0 3) (sending txt w))
      in *.
    exists (new_message reply false w3).
    assert (Hall : forall keep, silent keep ->
              filter keep (trace (after (setIsLoading false)
                                    (appended (new_message reply false w3) w3)))
              = filter keep (trace w)
                ++ filter keep
                     ([EvAddMessage (new_message txt true w)]
                      ++ retry_script txt (systemPrompt w) 0 (N - 1)
                      ++ [EvAddMessage (new_message reply false w3)])).
    { intros keep Hsilent.
      change (filter keep (trace w3 ++ [EvAddMessage (new_message reply false w3)])
              = filter keep (trace w)
                ++ filter keep
                     ([EvAddMessage (new_message txt true w)]
                      ++ retry_script txt (systemPrompt w) 0 (N - 1)
                      ++ [EvAddMessage (new_message reply false w3)])).
      rewrite !filter_app. rewrite (Htrace keep Hsilent).
      change (trace (sending txt w))
        with (trace w ++ [EvAddMessage (new_message txt true w)]).
      rewrite filter_app, <- !app_assoc. reflexivity. }
    split.
    { unfold invocations. rewrite (Hall is_invoke is_invoke_silent).
      rewrite !filter_app, !length_app, retry_script_invocations. simpl. lia. }
    split.
    { rewrite (Hall observable observable_silent).
      rewrite !filter_app, retry_script_observable. reflexivity. }
    split.
    { change (added (appended (new_message reply false w3) w3)
              = added w ++ [new_message txt true w; new_message reply false w3]).
      rewrite added_appended. unfold w3.
      rewrite callApiWithRetry_added, added_sending, <- app_assoc. reflexivity. }
    do 4 (split; [reflexivity | ]). split.
    { exists (messages w3). reflexivity. }
    intro Hno.
    change (messages w3 ++ [new_message reply false w3]
            = messages w ++ [new_message txt true w; new_message reply false w3]).
    unfold w3. rewrite callApiWithRetry_messages by assumption.
    change (messages (sending txt w))
      with (messages w ++ [new_message txt true w]).
    rewrite <- app_assoc. reflexivity.
Qed.

Lemma grew_by_more (ok : Event -> Prop) (w0 w w' : World) (more : list Event) :
  grew_by ok w0 w -> trace w' = trace w ++ more -> Forall ok more ->
  grew_by ok w0 w'.
Proof.
  intros [delta [Htrace Hok]] Hmore Hokmore.
  exists (delta ++ more). split.
  - rewrite Hmore, Htrace. symmetry. apply app_assoc.
  - apply Forall_app. now split.
Qed.

Lemma grew_by_refl (ok : Event -> Prop) (w : World) : grew_by ok w w.
Proof. exists []. split; [symmetry; apply app_nil_r | constructor]. Qed.

Lemma grew_by_host_op (ok : Event -> Prop) (w0 w : World) (h : HostOp) :
  (forall l, ok (EvConsole l)) ->
  grew_by ok w0 w -> grew_by ok w0 (after (host_op h) w).
Proof.
  intros Hconsole Hgrew. destruct h as [ | p | v].
  - apply (grew_by_more ok w0 w _ []); [exact Hgrew | | constructor].
    simpl. symmetry. apply app_nil_r.
  - apply (grew_by_more ok w0 w _ []); [exact Hgrew | | constructor].
    simpl. symmetry. apply app_nil_r.
  - unfold after. simpl. unfold updateApiFunction.
    destruct (is_function v).
    + apply (grew_by_more ok w0 w _ []); [exact Hgrew | | constructor].
      simpl. symmetry. apply app_nil_r.
    + apply (grew_by_more ok w0 w _ [EvConsole LogBadUpdate]);
        [exact Hgrew | reflexivity | ].
      constructor; [apply Hconsole | constructor].
Qed.

(** C5, as the code has it.  Every invocation made by one [sendMessage]
    passes the text of the call and the system prompt that was current
    when [sendMessage] was called, whatever the host sets while the loop
    is suspended: the prompt is fixed by the closure, not read again. *)
Theorem retry_loop_keeps_the_prompt_of_the_call
    (sched : Schedule) (txt : string) (w : World) :
  grew_by (invokes_with txt (systemPrompt w)) w (after (sendMessage sched txt) w).
Proof.
  set (ok := invokes_with txt (systemPrompt w)).
  assert (Hconsole : forall l, ok (EvConsole l))
    by (intros l m p Heq; discriminate).
  assert (Hadd : forall m, ok (EvAddMessage m))
    by (intros m0 m p Heq; discriminate).
  unfold after. destruct (string_dec (trim txt) "") as [Hblank | Hnonblank].
  - unfold sendMessage. rewrite sendMessage_of_run, (trim_blank _ Hblank).
    apply grew_by_refl.
  - rewrite (sendMessage_settled _ _ _ Hnonblank). simpl snd.
    set (w3 := after (callApiWithRetry (render w) sched txt 0 3) (sending txt w)).
    assert (Hloop : grew_by ok w w3).
    { unfold w3. apply (callApiWithRetry_preserves (grew_by ok w)).
      - intros e w' He Hw'.
        apply (grew_by_more ok w w' _ [e]); [exact Hw' | reflexivity | ].
        constructor; [ | constructor].
        destruct e as [m p | ms | l | m0]; simpl in He.
        + intros m' p' Heq. injection Heq as <- <-. exact He.
        + intros m p Heq; discriminate.
        + apply Hconsole.
        + contradiction.
      - intros h w' _ Hw'. now apply grew_by_host_op.
      - apply (grew_by_more ok w w _ [EvAddMessage (new_message txt true w)]);
          [apply grew_by_refl | reflexivity | ].
        constructor; [apply Hadd | constructor]. }
    destruct (fst (callApiWithRetry (render w) sched txt 0 3 (sending txt w)))
      as [response | error].
    + apply (grew_by_more ok w w3 _ [EvAddMessage (new_message response false w3)]);
        [exact Hloop | reflexivity | ].
      constructor; [apply Hadd | constructor].
    + set (w4 := after (console (LogFailedResponse error)) w3).
      apply (grew_by_more ok w w3 _
               [EvConsole (LogFailedResponse error);
                EvAddMessage (new_message apologyText false w4)]);
        [exact Hloop | | ].
      * simpl. rewrite <- app_assoc. reflexivity.
      * constructor; [apply Hconsole | ].
        constructor; [apply Hadd | constructor].
Qed.

(** ** Sessions *)

Lemma sendMessage_last_entry (sched : Schedule) (txt : string) (w : World) :
  trim txt <> "" ->
  exists front a, messages (after (sendMessage sched txt) w) = front ++ [a].
Proof.
  intro Hnonblank. unfold after. rewrite (sendMessage_settled _ _ _ Hnonblank).
  simpl snd.
  destruct (fst (callApiWithRetry (render w) sched txt 0 3 (sending txt w)));
    eexists; eexists; reflexivity.
Qed.

Lemma step_keeps_transcript_non_empty (o : Op) (w : World) :
  messages w <> [] -> messages (step o w) <> [].
Proof.
  intro Hw. destruct o as [txt sched | h].
  - simpl. destruct (string_dec (trim txt) "") as [Hblank | Hnonblank].
    + unfold sendMessage. rewrite sendMessage_of_run, (trim_blank _ Hblank).
      exact Hw.
    + destruct (sendMessage_last_entry sched txt w Hnonblank) as [front [a Heq]].
      unfold after in Heq. rewrite Heq. intro Hnil.
      apply app_eq_nil in Hnil. destruct Hnil as [_ Hnil]. discriminate.
  - destruct h as [ | p | v]; simpl.
    + discriminate.
    + exact Hw.
    + unfold updateApiFunction. destruct (is_function v); exact Hw.
Qed.

Lemma run_keeps (P : World -> Prop) :
  (forall o w, P w -> P (step o w)) ->
  forall ops w, P w -> P (run ops w).
Proof.
  intros Hstep ops. induction ops as [ | o ops IH]; intros w Hw; [exact Hw | ].
  simpl. apply IH. now apply Hstep.
Qed.

(** C6, as the code has it.  When [initialMessages] is absent or holds at
    least one entry, the transcript has at least one entry after
    construction and after every sequence of [sendMessage],
    [clearMessages], [setSystemPrompt] and [updateApiFunction]. *)
Theorem transcript_stays_non_empty (options : ChatOptions) (ops : list Op) :
  initialMessages options <> Some [] ->
  messages (run ops (useChat options)) <> [].
Proof.
  intro Hseeded.
  apply (run_keeps (fun w => messages w <> [])).
  - apply step_keeps_transcript_non_empty.
  - rewrite useChat_messages.
    destruct (initialMessages options) as [supplied | ].
    + intro Hnil. apply Hseeded. now rewrite Hnil.
    + discriminate.
Qed.

(** ** Identifiers *)














(** ** Further properties of the controller *)

(** An invariant kept by appends, by the loading flag's setter, by trace
    events and by the host's scheduled operations is kept by a send. *)
Lemma sendMessage_preserves (P : World -> Prop) (sched : Schedule) (txt : string) :
  (forall m w, P w -> P (appended m w)) ->
  (forall b w, P w -> P (after (setIsLoading b) w)) ->
  (forall e w, P w -> P (after (emit e) w)) ->
  (forall h w, scheduled sched h -> P w -> P (after (host_op h) w)) ->
  forall w, P w -> P (after (sendMessage sched txt) w).
Proof.
  intros Happ Hload Hemit Hhost w Hw. unfold after.
  destruct (string_dec (trim txt) "") as [Hblank | Hnonblank].
  - unfold sendMessage. rewrite sendMessage_of_run, (trim_blank _ Hblank).
    exact Hw.
  - rewrite (sendMessage_settled _ _ _ Hnonblank). simpl snd.
    set (w3 := after (callApiWithRetry (render w) sched txt 0 3) (sending txt w)).
    assert (Hloop : P w3).
    { unfold w3. apply (callApiWithRetry_preserves P).
      - intros e w' _ Hw'. now apply Hemit.
      - exact Hhost.
      - unfold sending. apply Hload. now apply Happ. }
    apply Hload.
    destruct (fst (callApiWithRetry (render w) sched txt 0 3 (sending txt w)))
      as [response | error].
    + now apply Happ.
    + apply Happ. now apply (Hemit (EvConsole (LogFailedResponse error))).
Qed.

Lemma step_responder (o : Op) (w : World) :
  apiFunction (step o w) = apiFunction w \/
  (is_function (apiFunction (step o w)) = true /\
   offered [o] (apiFunction (step o w))).
Proof.
  destruct o as [txt sched | h].
  - set (P := fun w' => apiFunction w' = apiFunction w \/
                        (is_function (apiFunction w') = true /\
                         scheduled sched (HUpdateApiFunction (apiFunction w')))).
    assert (HP : P (after (sendMessage sched txt) w)).
    { apply (sendMessage_preserves P sched txt); try (intros; assumption);
        [ | now left].
      intros h w' Hsched Hw'. destruct h as [ | p | v]; try exact Hw'.
      unfold P, after. simpl. unfold updateApiFunction.
      destruct (is_function v) eqn:Hv; [ | exact Hw'].
      right. simpl. split; assumption. }
    destruct HP as [Hsame | [Hfun Hsched]]; [now left | right].
    split; [exact Hfun | ].
    exists (OpSend txt sched). split; [now left | exact Hsched].
  - destruct h as [ | p | v]; try (left; reflexivity).
    simpl. unfold updateApiFunction.
    destruct (is_function v) eqn:Hv; [ | left; reflexivity].
    right. simpl. split; [exact Hv | ].
    exists (OpHost (HUpdateApiFunction v)). split; [now left | reflexivity].
Qed.

Lemma offered_later (o : Op) (ops : list Op) (v : ApiValue) :
  offered ops v -> offered (o :: ops) v.
Proof. intros [o' [Hin Ho']]. exists o'. split; [now right | exact Ho']. Qed.

Lemma offered_first (o : Op) (ops : list Op) (v : ApiValue) :
  offered [o] v -> offered (o :: ops) v.
Proof.
  intros [o' [[Heq | []] Ho']]. subst o'. exists o. split; [now left | exact Ho'].
Qed.

(** X1.  [updateApiFunction] installs a function and refuses any other
    value: the refusal writes one console line and leaves every cell, the
    previous responder included, as it was.  So after a sequence of public
    operations the responder is the one the sequence started with or a
    function that one of its [updateApiFunction] calls passed, between
    sends or while a send was suspended. *)
Theorem updateApiFunction_installs_functions_only
    (ops : list Op) (w : World) (v : ApiValue) :
  (is_function v = false ->
   updateApiFunction v w =
   (Normal tt,
    mkWorld (messages w) (isLoading w) (systemPrompt w) (apiFunction w)
            (reads w) (trace w ++ [EvConsole LogBadUpdate]))) /\
  (is_function v = true ->
   updateApiFunction v w =
   (Normal tt,
    mkWorld (messages w) (isLoading w) (systemPrompt w) v (reads w) (trace w))) /\
  (apiFunction (run ops w) = apiFunction w \/
   (is_function (apiFunction (run ops w)) = true /\
    offered ops (apiFunction (run ops w)))).
Proof.
  split; [ | split].
  - intro Hv. unfold updateApiFunction. rewrite Hv. reflexivity.
  - intro Hv. unfold updateApiFunction. rewrite Hv. reflexivity.
  - clear v. revert w. induction ops as [ | o ops IH]; intro w; [now left | ].
    simpl. destruct (IH (step o w)) as [Hsame | [Hfun Hoff]].
    + rewrite Hsame. destruct (step_responder o w) as [Hstep | [Hfun Hoff]].
      * now left.
      * right. split; [exact Hfun | now apply offered_first].
    + right. split; [exact Hfun | now apply offered_later].
Qed.

(** X2.  At construction a supplied system prompt is used when it is not
    the empty string; without one, or with the empty string, the hook
    starts with the default persona prompt. *)
Theorem initial_prompt_defaults_when_absent_or_empty (options : ChatOptions) :
  (forall p, opt_systemPrompt options = Some p -> p <> "" ->
             systemPrompt (useChat options) = p) /\
  (opt_systemPrompt options = None \/ opt_systemPrompt options = Some "" ->
   systemPrompt (useChat options) = defaultSystemPrompt).
Proof.
  assert (Hprompt : systemPrompt (useChat options) = systemPrompt_or_default options).
  { unfold useChat, mount, effects, after, bind, systemPrompt_or_default.
    destruct (initialMessages options) as [supplied | ];
      (destruct (opt_apiFunction options) as [f | ];
       [destruct (truthy_api f) | ]);
      (destruct (opt_systemPrompt options) as [p | ];
       [destruct (truthy_string p) | ]); reflexivity. }
  rewrite Hprompt. unfold systemPrompt_or_default. split.
  - intros p Hsome Hnonempty. rewrite Hsome.
    destruct p; [congruence | reflexivity].
  - intros [Hnone | Hempty]; [rewrite Hnone | rewrite Hempty]; reflexivity.
Qed.

(** X3.  At construction a supplied responder is installed whenever it is
    truthy, a function or not: the [typeof] guard of [updateApiFunction]
    is not applied here.  Without one, or with a falsy one, the imported
    default is installed. *)
Theorem initial_responder_is_the_supplied_truthy_value (options : ChatOptions) :
  (forall v, opt_apiFunction options = Some v -> truthy_api v = true ->
             apiFunction (useChat options) = v) /\
  (opt_apiFunction options = None \/ opt_apiFunction options = Some (JsOther false) ->
   apiFunction (useChat options) = callChatApi).
Proof.
  assert (Hapi : apiFunction (useChat options) = apiFunction_or_default options).
  { unfold useChat, mount, effects, after, bind, apiFunction_or_default.
    destruct (initialMessages options) as [supplied | ];
      (destruct (opt_apiFunction options) as [f | ];
       [destruct (truthy_api f) | ]);
      (destruct (opt_systemPrompt options) as [p | ];
       [destruct (truthy_string p) | ]); reflexivity. }
  rewrite Hapi. unfold apiFunction_or_default. split.
  - intros v Hsome Htruthy. rewrite Hsome, Htruthy. reflexivity.
  - intros [Hnone | Hfalsy]; [rewrite Hnone | rewrite Hfalsy]; reflexivity.
Qed.

Lemma useChat_not_loading (options : ChatOptions) :
  isLoading (useChat options) = false.
Proof.
  unfold useChat, mount, effects, after, bind.
  destruct (initialMessages options) as [supplied | ];
    (destruct (opt_apiFunction options) as [f | ];
     [destruct (truthy_api f) | ]);
    (destruct (opt_systemPrompt options) as [p | ];
     [destruct (truthy_string p) | ]); reflexivity.
Qed.

Lemma host_op_isLoading (h : HostOp) (w : World) :
  isLoading (after (host_op h) w) = isLoading w.
Proof.
  destruct h as [ | p | v]; try reflexivity.
  unfold after. simpl. unfold updateApiFunction.
  destruct (is_function v); reflexivity.
Qed.

(** X4.  Between operations the hook is never loading: after construction
    and after every completed sequence of public operations the loading
    flag is false, whatever the responder did. *)
Theorem loading_flag_is_false_between_operations
    (options : ChatOptions) (ops : list Op) :
  isLoading (run ops (useChat options)) = false.
Proof.
  apply (run_keeps (fun w => isLoading w = false)); [ | apply useChat_not_loading].
  intros o w Hw. destruct o as [txt sched | h].
  - simpl. destruct (string_dec (trim txt) "") as [Hblank | Hnonblank].
    + unfold sendMessage. rewrite sendMessage_of_run, (trim_blank _ Hblank).
      exact Hw.
    + rewrite (sendMessage_settled _ _ _ Hnonblank). reflexivity.
  - simpl. fold (after (host_op h) w). rewrite host_op_isLoading. exact Hw.
Qed.

(** X6.  A send writes neither the system prompt nor the responder: each of
    the two cells is after the send what it was before, unless the host
    ran the cell's own setter while the send was suspended. *)
Theorem sendMessage_writes_neither_prompt_nor_responder
    (sched : Schedule) (txt : string) (w : World) :
  ((forall p, ~ scheduled sched (HSetSystemPrompt p)) ->
   systemPrompt (after (sendMessage sched txt) w) = systemPrompt w) /\
  ((forall v, ~ scheduled sched (HUpdateApiFunction v)) ->
   apiFunction (after (sendMessage sched txt) w) = apiFunction w).
Proof.
  split; intro Hnever.
  - apply (sendMessage_preserves (fun w' => systemPrompt w' = systemPrompt w));
      try (intros; assumption); [ | reflexivity].
    intros h w' Hsched Hw'. destruct h as [ | p | v].
    + exact Hw'.
    + exfalso. exact (Hnever p Hsched).
    + unfold after. simpl. unfold updateApiFunction.
      destruct (is_function v); exact Hw'.
  - apply (sendMessage_preserves (fun w' => apiFunction w' = apiFunction w));
      try (intros; assumption); [ | reflexivity].
    intros h w' Hsched Hw'. destruct h as [ | p | v].
    + exact Hw'.
    + exact Hw'.
    + exfalso. exact (Hnever v Hsched).
Qed.

(** X7.  Once the transcript ends with an assistant entry it does so after
    every sequence of public operations: a send always closes with a reply,
    the degraded reply or the apology, also when the host cleared the
    transcript in between. *)
Theorem transcript_keeps_ending_with_an_assistant_entry
    (ops : list Op) (w : World) :
  ends_with_assistant w -> ends_with_assistant (run ops w).
Proof.
  apply (run_keeps ends_with_assistant). clear w.
  intros o w Hw. destruct o as [txt sched | h].
  - simpl. destruct (string_dec (trim txt) "") as [Hblank | Hnonblank].
    + unfold sendMessage. rewrite sendMessage_of_run, (trim_blank _ Hblank).
      exact Hw.
    + rewrite (sendMessage_settled _ _ _ Hnonblank). simpl snd.
      destruct (fst (callApiWithRetry (render w) sched txt 0 3 (sending txt w)));
        eexists; eexists; split; reflexivity.
  - destruct h as [ | p | v]; simpl.
    + exists [], {| id := "1"; text := greetingText; isUser := false;
                    timestamp := toISOString (clock (reads w)) |}.
      split; reflexivity.
    + exact Hw.
    + unfold updateApiFunction. destruct (is_function v); exact Hw.
Qed.

(** ** Counting attempts, timers and delay *)

Lemma is_timeout_silent : silent is_timeout.
Proof. intro l. reflexivity. Qed.

Lemma delay_in_app (t1 t2 : list Event) :
  delay_in (t1 ++ t2) = (delay_in t1 + delay_in t2)%Z.
Proof.
  induction t1 as [ | e t1 IH]; [reflexivity | ].
  destruct e; simpl; rewrite IH; lia.
Qed.

Lemma delay_in_filter (t : list Event) :
  delay_in (filter is_timeout t) = delay_in t.
Proof.
  induction t as [ | e t IH]; [reflexivity | ].
  destruct e; simpl; rewrite IH; reflexivity.
Qed.

Lemma called_timers cl sched userMessage retryCount w :
  timers (called cl sched userMessage retryCount w) = timers w.
Proof.
  unfold timers. rewrite called_trace by apply is_timeout_silent.
  simpl. rewrite app_nil_r. reflexivity.
Qed.

Lemma called_delay cl sched userMessage retryCount w :
  delay (called cl sched userMessage retryCount w) = delay w.
Proof.
  unfold delay. rewrite <- delay_in_filter.
  rewrite called_trace by apply is_timeout_silent.
  simpl. rewrite app_nil_r. apply delay_in_filter.
Qed.

Lemma backed_off_timers sched retryCount maxRetries error w :
  timers (backed_off sched retryCount maxRetries error w) = S (timers w).
Proof.
  unfold timers. rewrite backed_off_trace by apply is_timeout_silent.
  rewrite length_app. simpl. lia.
Qed.

Lemma backed_off_delay sched retryCount maxRetries error w :
  delay (backed_off sched retryCount maxRetries error w)
  = (delay w + 1000 * 2 ^ Z.of_nat retryCount)%Z.
Proof.
  unfold delay. rewrite <- delay_in_filter.
  rewrite backed_off_trace by apply is_timeout_silent.
  rewrite delay_in_app, delay_in_filter. simpl. lia.
Qed.

(** What any run of the loop can cost, whatever the responder does. *)
Lemma callApiWithRetry_budget cl sched userMessage maxRetries behaviour :
  captured_apiFunction cl = JsFunction behaviour ->
  forall n retryCount w,
    maxRetries - retryCount = n ->
    let w' := after (callApiWithRetry cl sched userMessage retryCount maxRetries) w in
    invocations w < invocations w' <= invocations w + n + 1 /\
    timers w' + invocations w + 1 = timers w + invocations w' /\
    (delay w' <= delay w + 1000 * 2 ^ Z.of_nat retryCount * (2 ^ Z.of_nat n - 1))%Z.
Proof.
  intros Hapi n.
  induction n as [ | n IH]; intros retryCount w Hn; cbv zeta;
    unfold after; rewrite callApiWithRetry_run, Hapi;
    pose proof (called_invocations cl sched userMessage retryCount w) as Hinv;
    pose proof (called_timers cl sched userMessage retryCount w) as Htim;
    pose proof (called_delay cl sched userMessage retryCount w) as Hdel;
    assert (Hpow : (0 < 2 ^ Z.of_nat retryCount)%Z)
      by (apply Z.pow_pos_nonneg; lia);
    destruct (behaviour (invocations w) userMessage (captured_systemPrompt cl))
      as [reply | error].
  - simpl snd. rewrite Hinv, Htim, Hdel. simpl. lia.
  - destruct (lt_dec retryCount maxRetries) as [Hlt | _]; [exfalso; lia | ].
    simpl snd.
    change (invocations (after (console (LogApiCallError error))
                               (called cl sched userMessage retryCount w)))
      with (length (filter is_invoke
                      (trace (called cl sched userMessage retryCount w)
                       ++ [EvConsole (LogApiCallError error)]))).
    change (timers (after (console (LogApiCallError error))
                          (called cl sched userMessage retryCount w)))
      with (length (filter is_timeout
                      (trace (called cl sched userMessage retryCount w)
                       ++ [EvConsole (LogApiCallError error)]))).
    change (delay (after (console (LogApiCallError error))
                         (called cl sched userMessage retryCount w)))
      with (delay_in (trace (called cl sched userMessage retryCount w)
                      ++ [EvConsole (LogApiCallError error)])).
    rewrite !filter_app, !length_app, delay_in_app. simpl.
    fold (invocations (called cl sched userMessage retryCount w)).
    fold (timers (called cl sched userMessage retryCount w)).
    fold (delay (called cl sched userMessage retryCount w)).
    rewrite Hinv, Htim, Hdel. lia.
  - simpl snd. rewrite Hinv, Htim, Hdel.
    assert (Hbig : (1 <= 2 ^ Z.of_nat (S n))%Z)
      by (assert (0 < 2 ^ Z.of_nat (S n))%Z by (apply Z.pow_pos_nonneg; lia); lia).
    split; [lia | ]. split; [lia | nia].
  - destruct (lt_dec retryCount maxRetries) as [_ | Hge]; [ | exfalso; lia].
    set (w2 := backed_off sched retryCount maxRetries error
                 (called cl sched userMessage retryCount w)).
    assert (Hinv2 : invocations w2 = S (invocations w))
      by (unfold w2; rewrite backed_off_invocations; exact Hinv).
    assert (Htim2 : timers w2 = S (timers w))
      by (unfold w2; rewrite backed_off_timers, Htim; reflexivity).
    assert (Hdel2 : delay w2 = (delay w + 1000 * 2 ^ Z.of_nat retryCount)%Z)
      by (unfold w2; rewrite backed_off_delay, Hdel; reflexivity).
    destruct (IH (S retryCount) w2) as [Hcount [Htimers Hdelay]]; [lia | ].
    unfold after in Hcount, Htimers, Hdelay.
    rewrite Hinv2 in Hcount, Htimers. rewrite Htim2 in Htimers.
    rewrite Hdel2 in Hdelay.
    rewrite Nat2Z.inj_succ, Z.pow_succ_r in Hdelay by lia.
    assert (Hpown : (0 < 2 ^ Z.of_nat n)%Z) by (apply Z.pow_pos_nonneg; lia).
    rewrite (Nat2Z.inj_succ n), Z.pow_succ_r by lia.
    split; [lia | ]. split; [lia | nia].
Qed.

(** X8.  For every behaviour of a responder function, one run of the retry
    loop invokes it at least once and at most [maxRetries - retryCount + 1]
    times (once when [retryCount] has reached [maxRetries]), sets one timer
    fewer than it makes invocations, and asks for no more than
    [1000 * 2^retryCount * (2^(maxRetries - retryCount) - 1)] milliseconds
    of back-off in all. *)
Theorem retry_loop_stays_within_its_budget
    (cl : Closure) (sched : Schedule) (userMessage : string)
    (retryCount maxRetries : nat) (w : World)
    (behaviour : nat -> string -> string -> Outcome) :
  captured_apiFunction cl = JsFunction behaviour ->
  let w' := after (callApiWithRetry cl sched userMessage retryCount maxRetries) w in
  invocations w < invocations w' <= invocations w + (maxRetries - retryCount) + 1 /\
  timers w' + invocations w + 1 = timers w + invocations w' /\
  (delay w' <= delay w + 1000 * 2 ^ Z.of_nat retryCount
                         * (2 ^ Z.of_nat (maxRetries - retryCount) - 1))%Z.
Proof.
  intro Hapi.
  exact (callApiWithRetry_budget cl sched userMessage maxRetries behaviour Hapi
           (maxRetries - retryCount) retryCount w eq_refl).
Qed.

Lemma appended_measures (m : Message) (w : World) :
  invocations (appended m w) = invocations w /\
  timers (appended m w) = timers w /\
  delay (appended m w) = delay w.
Proof.
  unfold invocations, timers, delay. simpl.
  rewrite !filter_app, !length_app, delay_in_app. simpl. repeat split; lia.
Qed.

Lemma console_measures (l : LogLine) (w : World) :
  invocations (after (console l) w) = invocations w /\
  timers (after (console l) w) = timers w /\
  delay (after (console l) w) = delay w.
Proof.
  unfold invocations, timers, delay. simpl.
  rewrite !filter_app, !length_app, delay_in_app. simpl. repeat split; lia.
Qed.

(** X9.  Whatever the text, the responder and the host do, one
    [sendMessage] makes at most four responder invocations, sets at most
    three timers and asks for at most 7000 milliseconds of back-off. *)
Theorem one_send_costs_at_most_four_invocations_and_seven_seconds
    (sched : Schedule) (txt : string) (w : World) :
  invocations (after (sendMessage sched txt) w) <= invocations w + 4 /\
  timers (after (sendMessage sched txt) w) <= timers w + 3 /\
  (delay (after (sendMessage sched txt) w) <= delay w + 7000)%Z.
Proof.
  unfold after. destruct (string_dec (trim txt) "") as [Hblank | Hnonblank].
  - unfold sendMessage. rewrite sendMessage_of_run, (trim_blank _ Hblank).
    simpl. lia.
  - rewrite (sendMessage_settled _ _ _ Hnonblank). simpl snd.
    set (w3 := after (callApiWithRetry (render w) sched txt 0 3) (sending txt w)).
    assert (Hstart : invocations (sending txt w) = invocations w /\
                     timers (sending txt w) = timers w /\
                     delay (sending txt w) = delay w)
      by apply (appended_measures (new_message txt true w) w).
    destruct Hstart as [Hi0 [Ht0 Hd0]].
    assert (Hloop : invocations w3 <= invocations w + 4 /\
                    timers w3 <= timers w + 3 /\
                    (delay w3 <= delay w + 7000)%Z).
    { destruct (apiFunction w) as [behaviour | t] eqn:Hapi.
      - destruct (callApiWithRetry_budget (render w) sched txt 3 behaviour Hapi
                    3 0 (sending txt w) eq_refl) as [Hcount [Htimers Hdelay]].
        fold w3 in Hcount, Htimers, Hdelay.
        rewrite Hi0 in Hcount, Htimers. rewrite Ht0 in Htimers.
        rewrite Hd0 in Hdelay. simpl in Hdelay. lia.
      - unfold w3, after.
        rewrite (callApiWithRetry_not_function (render w) sched txt 0 3 _ t Hapi).
        simpl snd.
        destruct (console_measures LogNotInitialized (sending txt w))
          as [Hi [Ht Hd]].
        rewrite Hi, Ht, Hd, Hi0, Ht0, Hd0. lia. }
    destruct Hloop as [Hi3 [Ht3 Hd3]].
    destruct (fst (callApiWithRetry (render w) sched txt 0 3 (sending txt w)))
      as [response | error].
    + destruct (appended_measures (new_message response false w3) w3)
        as [Hi [Ht Hd]].
      change (invocations (appended (new_message response false w3) w3)
              <= invocations w + 4 /\
              timers (appended (new_message response false w3) w3)
              <= timers w + 3 /\
              (delay (appended (new_message response false w3) w3)
               <= delay w + 7000)%Z).
      rewrite Hi, Ht, Hd. repeat split; assumption.
    + set (w4 := after (console (LogFailedResponse error)) w3).
      destruct (appended_measures (new_message apologyText false w4) w4)
        as [Hi [Ht Hd]].
      destruct (console_measures (LogFailedResponse error) w3) as [Hi' [Ht' Hd']].
      fold w4 in Hi', Ht', Hd'.
      change (invocations (appended (new_message apologyText false w4) w4)
              <= invocations w + 4 /\
              timers (appended (new_message apologyText false w4) w4)
              <= timers w + 3 /\
              (delay (appended (new_message apologyText false w4) w4)
               <= delay w + 7000)%Z).
      rewrite Hi, Ht, Hd, Hi', Ht', Hd'. repeat split; assumption.
Qed.

(** ** The loop and the host *)

(** Two runs of the loop of one closure, under any two schedules, from
    worlds that have seen as many invocations: the same completion and the
    same events but for console lines. *)
Lemma callApiWithRetry_ignores_the_host cl sched1 sched2 userMessage maxRetries :
  forall n retryCount w1 w2,
    maxRetries - retryCount = n ->
    invocations w1 = invocations w2 ->
    fst (callApiWithRetry cl sched1 userMessage retryCount maxRetries w1)
    = fst (callApiWithRetry cl sched2 userMessage retryCount maxRetries w2) /\
    forall keep, silent keep ->
      exists delta,
        filter keep
          (trace (after (callApiWithRetry cl sched1 userMessage retryCount maxRetries) w1))
        = filter keep (trace w1) ++ delta /\
        filter keep
          (trace (after (callApiWithRetry cl sched2 userMessage retryCount maxRetries) w2))
        = filter keep (trace w2) ++ delta.
Proof.
  intro n. induction n as [ | n IH]; intros retryCount w1 w2 Hn Hinv;
    unfold after; rewrite !callApiWithRetry_run, Hinv;
    destruct (captured_apiFunction cl) as [behaviour | t].
  all: try (split; [reflexivity | ]; intros keep Hsilent; exists [];
            simpl; rewrite !filter_app; simpl; rewrite Hsilent; split; reflexivity).
  all: destruct (behaviour (invocations w2) userMessage (captured_systemPrompt cl))
    as [reply | error].
  all: try (split; [reflexivity | ]; intros keep Hsilent;
            exists (filter keep [EvInvoke userMessage (captured_systemPrompt cl)]);
            simpl snd; split; now apply called_trace).
  all: destruct (lt_dec retryCount maxRetries) as [Hlt | Hge]; try (exfalso; lia).
  - split; [reflexivity | ]. intros keep Hsilent.
    exists (filter keep [EvInvoke userMessage (captured_systemPrompt cl)]).
    simpl. rewrite !filter_app. simpl. rewrite Hsilent, !app_nil_r.
    split; now apply called_trace.
  - set (v1 := backed_off sched1 retryCount maxRetries error
                 (called cl sched1 userMessage retryCount w1)).
    set (v2 := backed_off sched2 retryCount maxRetries error
                 (called cl sched2 userMessage retryCount w2)).
    assert (Hinv' : invocations v1 = invocations v2)
      by (unfold v1, v2; rewrite !backed_off_invocations, !called_invocations;
          congruence).
    destruct (IH (S retryCount) v1 v2) as [Hres Htrace]; [lia | exact Hinv' | ].
    split; [exact Hres | ]. intros keep Hsilent.
    destruct (Htrace keep Hsilent) as [delta [H1 H2]].
    unfold after in H1, H2.
    exists (filter keep [EvInvoke userMessage (captured_systemPrompt cl)]
            ++ filter keep [EvTimeout (1000 * 2 ^ Z.of_nat retryCount)]
            ++ delta).
    rewrite H1, H2. unfold v1, v2.
    rewrite !backed_off_trace, !called_trace by assumption.
    rewrite <- !app_assoc. split; reflexivity.
Qed.

Lemma said_new_message (txt : string) (b : bool) (w : World) :
  said (new_message txt b w) = (b, txt).
Proof. reflexivity. Qed.

(** X10.  What the host does while a send is suspended (clearing the
    transcript, replacing the prompt or the responder) changes neither
    what the send returns nor what it says: under any schedule the entries
    it appends have the origin and text they have with an idle host, and
    the responder is invoked and the timers are set just the same. *)
Theorem host_activity_does_not_change_the_reply
    (sched : Schedule) (txt : string) (w : World) :
  fst (sendMessage sched txt w) = fst (sendMessage quiet txt w) /\
  map said (added (after (sendMessage sched txt) w))
  = map said (added (after (sendMessage quiet txt) w)) /\
  filter is_invoke (trace (after (sendMessage sched txt) w))
  = filter is_invoke (trace (after (sendMessage quiet txt) w)) /\
  filter is_timeout (trace (after (sendMessage sched txt) w))
  = filter is_timeout (trace (after (sendMessage quiet txt) w)).
Proof.
  unfold after. destruct (string_dec (trim txt) "") as [Hblank | Hnonblank].
  - unfold sendMessage. rewrite !sendMessage_of_run, (trim_blank _ Hblank).
    repeat split.
  - rewrite !(sendMessage_settled _ _ _ Hnonblank). simpl fst. simpl snd.
    destruct (callApiWithRetry_ignores_the_host (render w) sched quiet txt 3
                3 0 (sending txt w) (sending txt w) eq_refl eq_refl)
      as [Hres Htrace].
    rewrite Hres.
    set (v1 := after (callApiWithRetry (render w) sched txt 0 3) (sending txt w)).
    set (v2 := after (callApiWithRetry (render w) quiet txt 0 3) (sending txt w)).
    assert (Hadded : added v1 = added v2)
      by (unfold v1, v2; rewrite !callApiWithRetry_added; reflexivity).
    assert (Hkeep : forall keep, silent keep ->
              filter keep (trace v1) = filter keep (trace v2))
      by (intros keep Hsilent; destruct (Htrace keep Hsilent) as [delta [H1 H2]];
          fold v1 in H1; fold v2 in H2; congruence).
    split; [reflexivity | ].
    destruct (fst (callApiWithRetry (render w) quiet txt 0 3 (sending txt w)))
      as [response | error].
    + repeat split.
      * change (map said (added (appended (new_message response false v1) v1))
                = map said (added (appended (new_message response false v2) v2))).
        rewrite !added_appended, !map_app, Hadded. reflexivity.
      * simpl. rewrite !filter_app. simpl.
        now rewrite (Hkeep is_invoke is_invoke_silent).
      * simpl. rewrite !filter_app. simpl.
        now rewrite (Hkeep is_timeout is_timeout_silent).
    + set (u1 := after (console (LogFailedResponse error)) v1).
      set (u2 := after (console (LogFailedResponse error)) v2).
      repeat split.
      * change (map said (added (appended (new_message apologyText false u1) u1))
                = map said (added (appended (new_message apologyText false u2) u2))).
        rewrite !added_appended, !map_app.
        unfold u1, u2, added, console. rewrite !emit_trace, !added_in_app.
        fold (added v1). fold (added v2). rewrite Hadded. reflexivity.
      * simpl. rewrite !filter_app. simpl.
        now rewrite (Hkeep is_invoke is_invoke_silent).
      * simpl. rewrite !filter_app. simpl.
        now rewrite (Hkeep is_timeout is_timeout_silent).
Qed.

(** The error a run of the loop gives up with. *)
Lemma callApiWithRetry_last_error cl sched userMessage maxRetries behaviour error :
  captured_apiFunction cl = JsFunction behaviour ->
  forall n retryCount w,
    retryCount + n = maxRetries ->
    fails behaviour (invocations w) n userMessage (captured_systemPrompt cl) ->
    behaviour (invocations w + n) userMessage (captured_systemPrompt cl)
      = Rejected error ->
    fst (callApiWithRetry cl sched userMessage retryCount maxRetries w) = Throw error.
Proof.
  intros Hapi n.
  induction n as [ | n IH]; intros retryCount w Hbudget Hfails Hlast;
    rewrite callApiWithRetry_run, Hapi.
  - rewrite Nat.add_0_r in Hlast. rewrite Hlast.
    destruct (lt_dec retryCount maxRetries) as [Hlt | _]; [exfalso; lia | ].
    reflexivity.
  - destruct (fails_head _ _ _ _ _ Hfails) as [first He]. rewrite He.
    destruct (lt_dec retryCount maxRetries) as [_ | Hge]; [ | exfalso; lia].
    set (w2 := backed_off sched retryCount maxRetries first
                 (called cl sched userMessage retryCount w)).
    assert (Hinv : invocations w2 = S (invocations w))
      by (unfold w2; rewrite backed_off_invocations; apply called_invocations).
    apply (IH (S retryCount) w2).
    + lia.
    + rewrite Hinv. now apply fails_tail.
    + rewrite Hinv. rewrite <- Hlast. f_equal. lia.
Qed.

(** X11.  For any retry budget: when every attempt from [retryCount] to
    [maxRetries] fails, the loop invokes the responder
    [maxRetries - retryCount + 1] times, doubling the timer from
    [1000 * 2^retryCount] between attempts, and gives up with the error of
    the last attempt, not of the first. *)
Theorem exhausted_loop_throws_the_last_error
    (cl : Closure) (sched : Schedule) (userMessage : string)
    (retryCount maxRetries : nat) (w : World)
    (behaviour : nat -> string -> string -> Outcome) (error : JsError) :
  captured_apiFunction cl = JsFunction behaviour ->
  retryCount <= maxRetries ->
  fails behaviour (invocations w) (maxRetries - retryCount)
        userMessage (captured_systemPrompt cl) ->
  behaviour (invocations w + (maxRetries - retryCount))
            userMessage (captured_systemPrompt cl) = Rejected error ->
  fst (callApiWithRetry cl sched userMessage retryCount maxRetries w) = Throw error /\
  filter observable
    (trace (after (callApiWithRetry cl sched userMessage retryCount maxRetries) w))
  = filter observable (trace w)
    ++ retry_script userMessage (captured_systemPrompt cl) retryCount
         (maxRetries - retryCount) /\
  invocations (after (callApiWithRetry cl sched userMessage retryCount maxRetries) w)
  = invocations w + (maxRetries - retryCount) + 1.
Proof.
  intros Hapi Hle Hfails Hlast.
  assert (Hall : fails behaviour (invocations w) (S (maxRetries - retryCount))
                   userMessage (captured_systemPrompt cl)).
  { intros k Hk. destruct (Nat.eq_dec k (maxRetries - retryCount)) as [-> | Hne].
    - now exists error.
    - apply Hfails. lia. }
  destruct (callApiWithRetry_exhausted cl sched userMessage maxRetries behaviour Hapi
              (maxRetries - retryCount) retryCount w) as [_ Htrace];
    [lia | exact Hall | ].
  split; [ | split].
  - apply (callApiWithRetry_last_error cl sched userMessage maxRetries behaviour
             error Hapi (maxRetries - retryCount) retryCount w);
      [lia | exact Hfails | exact Hlast].
  - rewrite (Htrace observable observable_silent), retry_script_observable.
    reflexivity.
  - unfold invocations. rewrite (Htrace is_invoke is_invoke_silent).
    rewrite length_app, retry_script_invocations. lia.
Qed.

(** ** Sessions without and with clearing *)

Lemma step_appends (o : Op) (w : World) :
  clear_free o ->
  exists tail,
    messages (step o w) = messages w ++ tail /\
    length tail = if sends_text o then 2 else 0.
Proof.
  intro Hfree. destruct o as [txt sched | h].
  - simpl in Hfree. simpl.
    destruct (string_dec (trim txt) "") as [Hblank | Hnonblank].
    + exists []. unfold sendMessage.
      rewrite sendMessage_of_run, (trim_blank _ Hblank), Hblank.
      split; [symmetry; apply app_nil_r | reflexivity].
    + rewrite (sendMessage_settled _ _ _ Hnonblank). simpl snd.
      set (w3 := after (callApiWithRetry (render w) sched txt 0 3) (sending txt w)).
      assert (Hmessages : messages w3 = messages w ++ [new_message txt true w])
        by (unfold w3; rewrite callApiWithRetry_messages by assumption;
            reflexivity).
      assert (Htruthy : truthy_string (trim txt) = true)
        by (destruct (trim txt); [congruence | reflexivity]).
      rewrite Htruthy.
      destruct (fst (callApiWithRetry (render w) sched txt 0 3 (sending txt w)))
        as [response | error].
      * exists [new_message txt true w; new_message response false w3].
        split; [ | reflexivity].
        simpl. rewrite Hmessages, <- app_assoc. reflexivity.
      * set (w4 := after (console (LogFailedResponse error)) w3).
        exists [new_message txt true w; new_message apologyText false w4].
        split; [ | reflexivity].
        simpl. rewrite Hmessages, <- app_assoc. reflexivity.
  - exists []. simpl in Hfree. split; [ | reflexivity].
    rewrite app_nil_r. destruct h as [ | p | v]; simpl.
    + congruence.
    + reflexivity.
    + unfold updateApiFunction. destruct (is_function v); reflexivity.
Qed.

(** X12.  As long as nothing clears it the transcript is append-only: a
    session keeps every earlier entry in place and adds exactly two entries
    for each send whose text is not blank, none for any other operation. *)
Theorem transcript_grows_by_two_per_send (ops : list Op) (w : World) :
  Forall clear_free ops ->
  exists tail,
    messages (run ops w) = messages w ++ tail /\
    length tail = 2 * nonblank_sends ops.
Proof.
  revert w. induction ops as [ | o ops IH]; intros w Hfree.
  - exists []. split; [symmetry; apply app_nil_r | reflexivity].
  - inversion Hfree as [ | o' ops' Ho Hops]; subst.
    destruct (step_appends o w Ho) as [first [Hfirst Hlen]].
    destruct (IH (step o w) Hops) as [rest [Hrest Hlenrest]].
    exists (first ++ rest). split.
    + simpl. rewrite Hrest, Hfirst. symmetry. apply app_assoc.
    + rewrite length_app, Hlen, Hlenrest. unfold nonblank_sends. simpl.
      destruct (sends_text o); simpl; lia.
Qed.

Lemma suspended_app (hs1 hs2 : list HostOp) (w : World) :
  after (suspended (hs1 ++ hs2)) w
  = after (suspended hs2) (after (suspended hs1) w).
Proof.
  revert w. induction hs1 as [ | h hs1 IH]; intro w; [reflexivity | ].
  rewrite <- app_comm_cons, !suspended_cons. apply IH.
Qed.

Lemma host_op_just_greeted (h : HostOp) (w : World) :
  just_greeted w \/ h = HClearMessages -> just_greeted (after (host_op h) w).
Proof.
  intros Hcase. destruct h as [ | p | v].
  - eexists. split; [reflexivity | split; reflexivity].
  - destruct Hcase as [Hw | Heq]; [exact Hw | discriminate].
  - destruct Hcase as [Hw | Heq]; [ | discriminate].
    unfold after. simpl. unfold updateApiFunction.
    destruct (is_function v); exact Hw.
Qed.

(** Once the host has cleared the transcript during a suspension, the
    suspension ends with the lone greeting, whatever else the host ran. *)
Lemma suspended_just_greeted (hs : list HostOp) (w : World) :
  just_greeted w \/ In HClearMessages hs ->
  just_greeted (after (suspended hs) w).
Proof.
  revert w. induction hs as [ | h rest IH]; intros w Hcase.
  - destruct Hcase as [Hw | []]. exact Hw.
  - rewrite suspended_cons. apply IH.
    destruct Hcase as [Hw | [Heq | Hin]].
    + left. apply host_op_just_greeted. now left.
    + left. apply host_op_just_greeted. right. now symmetry.
    + now right.
Qed.

(** What holds when the first attempt of a run settles and is kept by the
    loop's events and the host holds when the run settles. *)
Lemma callApiWithRetry_keeps_from_first_call (P : World -> Prop)
    cl sched userMessage retryCount maxRetries w behaviour :
  captured_apiFunction cl = JsFunction behaviour ->
  (forall e w', retry_event cl userMessage e -> P w' -> P (after (emit e) w')) ->
  (forall h w', scheduled sched h -> P w' -> P (after (host_op h) w')) ->
  P (called cl sched userMessage retryCount w) ->
  P (after (callApiWithRetry cl sched userMessage retryCount maxRetries) w).
Proof.
  intros Hapi Hemit Hhost Hcalled.
  unfold after. rewrite callApiWithRetry_run, Hapi.
  destruct (behaviour (invocations w) userMessage (captured_systemPrompt cl))
    as [reply | error]; [exact Hcalled | ].
  destruct (lt_dec retryCount maxRetries) as [Hlt | Hge].
  - apply (callApiWithRetry_preserves P); try assumption.
    unfold backed_off. apply suspended_preserves.
    + intros h w' Hin. apply Hhost. exists retryCount. now right.
    + apply (Hemit (EvTimeout _)); [exact I | ].
      apply (Hemit (EvConsole _)); [exact I | ].
      apply (Hemit (EvConsole _)); [exact I | exact Hcalled].
  - simpl. apply (Hemit (EvConsole (LogApiCallError error))); [exact I | ].
    exact Hcalled.
Qed.

(** X13.  When the host clears the transcript while the first responder
    call of a send is pending, the send still appends its assistant entry:
    whatever the responder does and whatever else the host runs, the
    transcript is then exactly a fresh greeting followed by that entry (the
    reply, when the first call resolves), and the user's entry that
    [sendMessage] returns is not in it. *)
Theorem clearing_during_the_call_leaves_greeting_and_reply
    (behaviour : nat -> string -> string -> Outcome)
    (sched : Schedule) (txt : string) (w : World) :
  apiFunction w = JsFunction behaviour ->
  trim txt <> "" ->
  In HClearMessages (during_call sched 0) ->
  exists u g a : Message,
    sendMessage sched txt w = (Normal (Some u), after (sendMessage sched txt) w) /\
    text u = txt /\ isUser u = true /\
    messages (after (sendMessage sched txt) w) = [g; a] /\
    id g = "1" /\ said g = (false, greetingText) /\
    isUser a = false /\
    ~ In u (messages (after (sendMessage sched txt) w)) /\
    (forall reply,
       behaviour (invocations w) txt (systemPrompt w) = Resolved reply ->
       said a = (false, reply)).
Proof.
  intros Hapi Hnonblank Hclear.
  set (w3 := after (callApiWithRetry (render w) sched txt 0 3) (sending txt w)).
  assert (Hgreeted : just_greeted w3).
  { unfold w3.
    apply (callApiWithRetry_keeps_from_first_call just_greeted
             (render w) sched txt 0 3 (sending txt w) behaviour Hapi).
    - intros e w' _ Hw'. exact Hw'.
    - intros h w' _ Hw'. apply host_op_just_greeted. now left.
    - unfold called. apply suspended_just_greeted. now right. }
  destruct Hgreeted as [g [Hg [Hid Hsaid]]].
  assert (Hfirst : forall reply,
             behaviour (invocations w) txt (systemPrompt w) = Resolved reply ->
             fst (callApiWithRetry (render w) sched txt 0 3 (sending txt w))
             = Normal reply).
  { intros reply Hreply. rewrite callApiWithRetry_run.
    unfold render at 1. simpl captured_apiFunction.
    rewrite Hapi, sending_invocations. simpl captured_systemPrompt.
    rewrite Hreply. reflexivity. }
  assert (Huser : isUser g = false)
    by (unfold said in Hsaid; now injection Hsaid).
  exists (new_message txt true w), g.
  unfold after at 1 2 3. rewrite (sendMessage_settled _ _ _ Hnonblank). simpl snd.
  fold w3.
  destruct (fst (callApiWithRetry (render w) sched txt 0 3 (sending txt w)))
    as [response | error] eqn:Hres.
  - exists (new_message response false w3).
    assert (Hmessages : messages (after (setIsLoading false)
                          (appended (new_message response false w3) w3))
                        = [g; new_message response false w3])
      by (change (messages w3 ++ [new_message response false w3]
                  = [g; new_message response false w3]); rewrite Hg; reflexivity).
    split; [reflexivity | ]. do 2 (split; [reflexivity | ]).
    split; [exact Hmessages | ]. do 2 (split; [assumption | ]).
    split; [reflexivity | ]. split.
    + rewrite Hmessages. intros [Heq | [Heq | []]].
      * rewrite Heq in Huser. discriminate.
      * apply (f_equal isUser) in Heq. discriminate.
    + intros reply Hreply. apply Hfirst in Hreply.
      injection Hreply as ->. reflexivity.
  - set (w4 := after (console (LogFailedResponse error)) w3).
    exists (new_message apologyText false w4).
    assert (Hmessages : messages (after (setIsLoading false)
                          (appended (new_message apologyText false w4) w4))
                        = [g; new_message apologyText false w4])
      by (change (messages w3 ++ [new_message apologyText false w4]
                  = [g; new_message apologyText false w4]); rewrite Hg;
          reflexivity).
    split; [reflexivity | ]. do 2 (split; [reflexivity | ]).
    split; [exact Hmessages | ]. do 2 (split; [assumption | ]).
    split; [reflexivity | ]. split.
    + rewrite Hmessages. intros [Heq | [Heq | []]].
      * rewrite Heq in Huser. discriminate.
      * apply (f_equal isUser) in Heq. discriminate.
    + intros reply Hreply. apply Hfirst in Hreply. discriminate.
Qed.

End Controller.

(** ** The theorems at work, and where the stated behaviour fails *)

(** C1 on a send of "I feel anxious" to a responder that replies at once,
    on a send of three spaces and on a send of an ideographic space
    (U+3000, bytes E3 80 80). *)
Lemma sendMessage_appends_one_user_and_one_assistant_entry_witness :
  let send := sendMessage ticking_clock sample_toISOString quiet in
  let w := useChat ticking_clock sample_toISOString breathing default_options in
  trim "I feel anxious" <> "" /\
  whitespace_only "   " = true /\
  whitespace_only (bytes [227; 128; 128]) = true /\
  (exists u a : Message,
     send "I feel anxious" w = (Normal (Some u), after (send "I feel anxious") w) /\
     added (after (send "I feel anxious") w) = added w ++ [u; a] /\
     text u = "I feel anxious" /\ isUser u = true /\ isUser a = false /\
     (~ scheduled quiet HClearMessages ->
      messages (after (send "I feel anxious") w) = messages w ++ [u; a]) /\
     isLoading (after (send "I feel anxious") w) = false /\
     (exists front, messages (after (send "I feel anxious") w) = front ++ [a])) /\
  send "   " w = (Normal None, w) /\
  send (bytes [227; 128; 128]) w = (Normal None, w).
Proof.
  intros send w.
  assert (Hnonblank : trim "I feel anxious" <> "") by (vm_compute; discriminate).
  assert (Hblank : whitespace_only "   " = true) by reflexivity.
  assert (Hwide : whitespace_only (bytes [227; 128; 128]) = true) by reflexivity.
  split; [exact Hnonblank | ]. split; [exact Hblank | ]. split; [exact Hwide | ].
  split; [ | split].
  - exact (proj1 (sendMessage_appends_one_user_and_one_assistant_entry
                    ticking_clock sample_toISOString quiet "I feel anxious" w)
                 Hnonblank).
  - exact (proj1 (proj2 (sendMessage_appends_one_user_and_one_assistant_entry
                           ticking_clock sample_toISOString quiet "   " w))
                 Hblank).
  - exact (proj1 (proj2 (sendMessage_appends_one_user_and_one_assistant_entry
                           ticking_clock sample_toISOString quiet
                           (bytes [227; 128; 128]) w))
                 Hwide).
Defined.

(** C2 on a responder that rejects every invocation: the retry loop throws
    and the send still completes with the apology. *)
Lemma sendMessage_absorbs_every_failure_witness :
  let send := sendMessage ticking_clock sample_toISOString quiet in
  let w := useChat ticking_clock sample_toISOString always_rejects default_options in
  let loop := callApiWithRetry ticking_clock sample_toISOString (render w) quiet
                "hello" 0 3 in
  trim "hello" <> "" /\
  fst (loop (sending ticking_clock sample_toISOString "hello" w))
    = Throw "network down" /\
  exists a : Message,
    messages (after (send "hello") w) =
      messages (after loop (sending ticking_clock sample_toISOString "hello" w))
      ++ [a] /\
    text a = apologyText /\ isUser a = false /\
    In (EvConsole (LogFailedResponse "network down"))
       (trace (after (send "hello") w)) /\
    isLoading (after (send "hello") w) = false.
Proof.
  intros send w loop.
  assert (Hnonblank : trim "hello" <> "") by (vm_compute; discriminate).
  assert (Hthrow : fst (loop (sending ticking_clock sample_toISOString "hello" w))
                   = Throw "network down") by (vm_compute; reflexivity).
  split; [exact Hnonblank | ]. split; [exact Hthrow | ].
  exact (proj2 (sendMessage_absorbs_every_failure
                  ticking_clock sample_toISOString quiet "hello" w)
               Hnonblank "network down" Hthrow).
Defined.

(** C3 on the responder that rejects every invocation. *)
Lemma always_failing_responder_is_invoked_four_times_witness :
  let send := sendMessage ticking_clock sample_toISOString quiet in
  let w := useChat ticking_clock sample_toISOString always_rejects default_options in
  apiFunction w = always_rejects /\
  trim "hello" <> "" /\
  exists u a : Message,
    filter observable (trace (after (send "hello") w)) =
      filter observable (trace w) ++
      [EvAddMessage u;
       EvInvoke "hello" (systemPrompt w); EvTimeout 1000;
       EvInvoke "hello" (systemPrompt w); EvTimeout 2000;
       EvInvoke "hello" (systemPrompt w); EvTimeout 4000;
       EvInvoke "hello" (systemPrompt w);
       EvAddMessage a] /\
    invocations (after (send "hello") w) = invocations w + 4 /\
    text u = "hello" /\ isUser u = true /\
    text a = apologyText /\ isUser a = false /\
    (exists front, messages (after (send "hello") w) = front ++ [a]) /\
    (~ scheduled quiet HClearMessages ->
     messages (after (send "hello") w) = messages w ++ [u; a]).
Proof.
  intros send w.
  assert (Hapi : apiFunction w = always_rejects) by reflexivity.
  assert (Hnonblank : trim "hello" <> "") by (vm_compute; discriminate).
  split; [exact Hapi | ]. split; [exact Hnonblank | ].
  apply (always_failing_responder_is_invoked_four_times
           ticking_clock sample_toISOString
           (fun _ _ _ => Rejected "network down") quiet "hello" w Hapi Hnonblank).
  intros k m p. exists "network down". reflexivity.
Defined.

(** C4 with N = 3: two failures, then the reply. *)
Lemma responder_succeeding_on_its_Nth_invocation_witness :
  let send := sendMessage ticking_clock sample_toISOString quiet in
  let w := useChat ticking_clock sample_toISOString (flaky_until 2) default_options in
  apiFunction w = flaky_until 2 /\
  trim "hello" <> "" /\
  1 <= 3 <= 4 /\
  exists u a : Message,
    invocations (after (send "hello") w) = invocations w + 3 /\
    filter observable (trace (after (send "hello") w)) =
      filter observable (trace w)
      ++ [EvAddMessage u]
      ++ retry_script "hello" (systemPrompt w) 0 (3 - 1)
      ++ [EvAddMessage a] /\
    added (after (send "hello") w) = added w ++ [u; a] /\
    text u = "hello" /\ isUser u = true /\
    text a = "Take a slow breath." /\ isUser a = false /\
    (exists front, messages (after (send "hello") w) = front ++ [a]) /\
    (~ scheduled quiet HClearMessages ->
     messages (after (send "hello") w) = messages w ++ [u; a]).
Proof.
  intros send w.
  assert (Hapi : apiFunction w = flaky_until 2) by reflexivity.
  assert (Hnonblank : trim "hello" <> "") by (vm_compute; discriminate).
  assert (HN : 1 <= 3 <= 4) by lia.
  split; [exact Hapi | ]. split; [exact Hnonblank | ]. split; [exact HN | ].
  apply (responder_succeeding_on_its_Nth_invocation
           ticking_clock sample_toISOString
           (fun k _ _ => if Nat.ltb k 2 then Rejected "timeout"
                         else Resolved "Take a slow breath.")
           quiet "hello" w 3 "Take a slow breath." Hapi Hnonblank HN).
  - intros k Hk. exists "timeout".
    destruct k as [ | [ | k]]; [reflexivity | reflexivity | simpl in Hk; lia].
  - reflexivity.
Defined.

(** C5 fails: the host sets a new prompt while the first back-off timer
    runs; the second invocation still receives the old one. *)
Lemma retry_after_a_prompt_swap_still_passes_the_old_prompt :
  let w := useChat ticking_clock sample_toISOString (flaky_until 1)
             {| initialMessages := None;
                opt_systemPrompt := Some "old prompt";
                opt_apiFunction := None |} in
  let w' := after (sendMessage ticking_clock sample_toISOString
                     prompt_swapped_during_first_wait "hello") w in
  during_wait prompt_swapped_during_first_wait 0 = [HSetSystemPrompt "new prompt"] /\
  systemPrompt w' = "new prompt" /\
  filter is_invoke (trace w') =
    [EvInvoke "hello" "old prompt"; EvInvoke "hello" "old prompt"] /\
  nth 1 (filter is_invoke (trace w')) (EvTimeout 0) <> EvInvoke "hello" "new prompt".
Proof.
  vm_compute. repeat split; discriminate.
Defined.

(** C6 fails: an empty [initialMessages] list is taken as it is. *)
Lemma empty_initialMessages_leave_the_transcript_empty :
  messages (useChat ticking_clock sample_toISOString echo
              {| initialMessages := Some [];
                 opt_systemPrompt := None;
                 opt_apiFunction := None |}) = [] /\
  ~ (messages (useChat ticking_clock sample_toISOString echo
                 {| initialMessages := Some [];
                    opt_systemPrompt := None;
                    opt_apiFunction := None |}) <> []).
Proof.
  split; [reflexivity | ]. intro H. apply H. reflexivity.
Defined.

(** C6 as amended, on a session from the default construction. *)
Lemma transcript_stays_non_empty_witness :
  initialMessages default_options <> Some [] /\
  messages (run ticking_clock sample_toISOString
              [OpSend "hello" cleared_during_first_call;
               OpHost HClearMessages;
               OpHost (HSetSystemPrompt "Be brief.");
               OpHost (HUpdateApiFunction unplugged);
               OpSend "   " quiet]
              (useChat ticking_clock sample_toISOString echo default_options))
  <> [].
Proof.
  assert (Hseeded : initialMessages default_options <> Some [])
    by (simpl; discriminate).
  split; [exact Hseeded | ].
  exact (transcript_stays_non_empty ticking_clock sample_toISOString echo
           default_options _ Hseeded).
Defined.




(** C10 on an empty supplied list and on no list at all. *)
Lemma supplied_initialMessages_are_the_initial_transcript_witness :
  let supplied_none := {| initialMessages := Some [];
                          opt_systemPrompt := None;
                          opt_apiFunction := None |} in
  initialMessages supplied_none = Some [] /\
  initialMessages default_options = None /\
  messages (useChat ticking_clock sample_toISOString echo supplied_none) = [] /\
  messages (useChat ticking_clock sample_toISOString echo default_options) =
    [ {| id := "1"; text := greetingText; isUser := false;
         timestamp := sample_toISOString (ticking_clock 0) |} ].
Proof.
  intro supplied_none.
  split; [reflexivity | ]. split; [reflexivity | ]. split.
  - exact (proj1 (supplied_initialMessages_are_the_initial_transcript
                    ticking_clock sample_toISOString echo supplied_none)
                 [] eq_refl).
  - exact (proj2 (proj2 (supplied_initialMessages_are_the_initial_transcript
                           ticking_clock sample_toISOString echo default_options))
                 eq_refl).
Defined.

(** The two sessions the specification walks through. *)
Example immediate_reply_session :
  let w := after (sendMessage ticking_clock sample_toISOString quiet "I feel anxious")
             (useChat ticking_clock sample_toISOString breathing default_options) in
  map (fun m => (isUser m, text m)) (messages w) =
    [(false, greetingText);
     (true, "I feel anxious");
     (false, "Let's try a breathing exercise")] /\
  isLoading w = false.
Proof. vm_compute. split; reflexivity. Qed.

Example always_rejecting_session :
  let w := after (sendMessage ticking_clock sample_toISOString quiet "hello")
             (useChat ticking_clock sample_toISOString always_rejects default_options) in
  map (fun m => (isUser m, text m)) (messages w) =
    [(false, greetingText); (true, "hello"); (false, apologyText)] /\
  isLoading w = false.
Proof. vm_compute. split; reflexivity. Qed.

(** ** The further properties at work *)

(** X1 on a refused value, on an accepted function, and on a session in
    which a function is installed while a send is suspended and a value
    that is no function is refused afterwards. *)
Lemma updateApiFunction_installs_functions_only_witness :
  let w := useChat ticking_clock sample_toISOString echo default_options in
  let swapping := {| during_call := fun _ => [];
                     during_wait := fun _ => [HUpdateApiFunction breathing] |} in
  let ops := [OpSend "hello" swapping; OpHost (HUpdateApiFunction unplugged)] in
  is_function unplugged = false /\
  is_function breathing = true /\
  after (updateApiFunction unplugged) w =
    mkWorld (messages w) (isLoading w) (systemPrompt w) echo
            (reads w) (trace w ++ [EvConsole LogBadUpdate]) /\
  apiFunction (after (updateApiFunction breathing) w) = breathing /\
  (apiFunction (run ticking_clock sample_toISOString ops w) = apiFunction w \/
   (is_function (apiFunction (run ticking_clock sample_toISOString ops w)) = true /\
    offered ops (apiFunction (run ticking_clock sample_toISOString ops w)))).
Proof.
  intros w swapping ops.
  assert (Hbad : is_function unplugged = false) by reflexivity.
  assert (Hgood : is_function breathing = true) by reflexivity.
  split; [exact Hbad | ]. split; [exact Hgood | ]. split; [ | split].
  - unfold after.
    rewrite (proj1 (updateApiFunction_installs_functions_only ticking_clock
                      sample_toISOString ops w unplugged) Hbad).
    reflexivity.
  - unfold after.
    rewrite (proj1 (proj2 (updateApiFunction_installs_functions_only ticking_clock
                             sample_toISOString ops w breathing)) Hgood).
    reflexivity.
  - exact (proj2 (proj2 (updateApiFunction_installs_functions_only ticking_clock
                           sample_toISOString ops w echo))).
Defined.

(** X2 on a supplied prompt and on the empty string. *)
Lemma initial_prompt_defaults_when_absent_or_empty_witness :
  let supplied := {| initialMessages := None;
                     opt_systemPrompt := Some "Be brief.";
                     opt_apiFunction := None |} in
  let empty := {| initialMessages := None;
                  opt_systemPrompt := Some "";
                  opt_apiFunction := None |} in
  opt_systemPrompt supplied = Some "Be brief." /\
  "Be brief." <> "" /\
  (opt_systemPrompt empty = None \/ opt_systemPrompt empty = Some "") /\
  systemPrompt (useChat ticking_clock sample_toISOString echo supplied) = "Be brief." /\
  systemPrompt (useChat ticking_clock sample_toISOString echo empty)
    = defaultSystemPrompt.
Proof.
  intros supplied empty.
  assert (Hnonempty : "Be brief." <> "") by discriminate.
  assert (Hempty : opt_systemPrompt empty = None \/ opt_systemPrompt empty = Some "")
    by (right; reflexivity).
  split; [reflexivity | ]. split; [exact Hnonempty | ]. split; [exact Hempty | ].
  split.
  - exact (proj1 (initial_prompt_defaults_when_absent_or_empty
                    ticking_clock sample_toISOString echo supplied)
                 "Be brief." eq_refl Hnonempty).
  - exact (proj2 (initial_prompt_defaults_when_absent_or_empty
                    ticking_clock sample_toISOString echo empty)
                 Hempty).
Defined.

(** X3 on a truthy value that is no function and on a falsy one. *)
Lemma initial_responder_is_the_supplied_truthy_value_witness :
  let truthy := {| initialMessages := None;
                   opt_systemPrompt := None;
                   opt_apiFunction := Some unplugged |} in
  let falsy := {| initialMessages := None;
                  opt_systemPrompt := None;
                  opt_apiFunction := Some (JsOther false) |} in
  opt_apiFunction truthy = Some unplugged /\
  truthy_api unplugged = true /\
  (opt_apiFunction falsy = None \/ opt_apiFunction falsy = Some (JsOther false)) /\
  apiFunction (useChat ticking_clock sample_toISOString echo truthy) = unplugged /\
  apiFunction (useChat ticking_clock sample_toISOString echo falsy) = echo.
Proof.
  intros truthy falsy.
  assert (Hfalsy : opt_apiFunction falsy = None \/
                   opt_apiFunction falsy = Some (JsOther false))
    by (right; reflexivity).
  split; [reflexivity | ]. split; [reflexivity | ]. split; [exact Hfalsy | ].
  split.
  - exact (proj1 (initial_responder_is_the_supplied_truthy_value
                    ticking_clock sample_toISOString echo truthy)
                 unplugged eq_refl eq_refl).
  - exact (proj2 (initial_responder_is_the_supplied_truthy_value
                    ticking_clock sample_toISOString echo falsy)
                 Hfalsy).
Defined.

(** X6 on a send during which the host clears the transcript but sets
    neither the prompt nor the responder. *)
Lemma sendMessage_writes_neither_prompt_nor_responder_witness :
  let w := useChat ticking_clock sample_toISOString echo default_options in
  let w' := after (sendMessage ticking_clock sample_toISOString
                     cleared_during_first_call "hello") w in
  (forall p, ~ scheduled cleared_during_first_call (HSetSystemPrompt p)) /\
  (forall v, ~ scheduled cleared_during_first_call (HUpdateApiFunction v)) /\
  systemPrompt w' = systemPrompt w /\
  apiFunction w' = apiFunction w.
Proof.
  intros w w'.
  assert (Hclears : forall h, scheduled cleared_during_first_call h ->
                              h = HClearMessages).
  { intros h [k [Hin | Hin]]; simpl in Hin.
    - destruct (Nat.eqb k 0); simpl in Hin; [ | contradiction].
      destruct Hin as [Heq | []]. now symmetry.
    - contradiction. }
  assert (Hprompt : forall p, ~ scheduled cleared_during_first_call (HSetSystemPrompt p))
    by (intros p Hs; apply Hclears in Hs; discriminate).
  assert (Hapi : forall v, ~ scheduled cleared_during_first_call (HUpdateApiFunction v))
    by (intros v Hs; apply Hclears in Hs; discriminate).
  split; [exact Hprompt | ]. split; [exact Hapi | ]. split.
  - exact (proj1 (sendMessage_writes_neither_prompt_nor_responder
                    ticking_clock sample_toISOString
                    cleared_during_first_call "hello" w) Hprompt).
  - exact (proj2 (sendMessage_writes_neither_prompt_nor_responder
                    ticking_clock sample_toISOString
                    cleared_during_first_call "hello" w) Hapi).
Defined.

(** X7 from the default construction. *)
Lemma transcript_keeps_ending_with_an_assistant_entry_witness :
  let w := useChat ticking_clock sample_toISOString always_rejects default_options in
  ends_with_assistant w /\
  ends_with_assistant
    (run ticking_clock sample_toISOString
       [OpSend "hello" cleared_during_first_call;
        OpHost (HUpdateApiFunction echo);
        OpSend "again" quiet;
        OpHost HClearMessages] w).
Proof.
  intro w.
  assert (Hstart : ends_with_assistant w)
    by (eexists []; eexists; split; reflexivity).
  split; [exact Hstart | ].
  exact (transcript_keeps_ending_with_an_assistant_entry
           ticking_clock sample_toISOString _ w Hstart).
Defined.

(** X8 on a loop entered at its second attempt with a budget of five. *)
Lemma retry_loop_stays_within_its_budget_witness :
  let w := useChat ticking_clock sample_toISOString always_rejects default_options in
  let w' := after (callApiWithRetry ticking_clock sample_toISOString
                     (render w) quiet "hello" 1 5) w in
  captured_apiFunction (render w) = always_rejects /\
  invocations w < invocations w' <= invocations w + (5 - 1) + 1 /\
  timers w' + invocations w + 1 = timers w + invocations w' /\
  (delay w' <= delay w + 1000 * 2 ^ Z.of_nat 1 * (2 ^ Z.of_nat (5 - 1) - 1))%Z.
Proof.
  intros w w'.
  assert (Hapi : captured_apiFunction (render w) = always_rejects) by reflexivity.
  split; [exact Hapi | ].
  exact (retry_loop_stays_within_its_budget ticking_clock sample_toISOString
           (render w) quiet "hello" 1 5 w
           (fun _ _ _ => Rejected "network down") Hapi).
Defined.

(** X11 with a budget of two retries: the third error is the one thrown. *)
Lemma exhausted_loop_throws_the_last_error_witness :
  let w := useChat ticking_clock sample_toISOString rejects_with_its_count
             default_options in
  let loop := callApiWithRetry ticking_clock sample_toISOString
                (render w) quiet "hello" 0 2 in
  captured_apiFunction (render w) = rejects_with_its_count /\
  0 <= 2 /\
  fst (loop w) = Throw "2" /\
  filter observable (trace (after loop w))
  = filter observable (trace w)
    ++ retry_script "hello" (captured_systemPrompt (render w)) 0 (2 - 0) /\
  invocations (after loop w) = invocations w + (2 - 0) + 1.
Proof.
  intros w loop.
  assert (Hapi : captured_apiFunction (render w) = rejects_with_its_count)
    by reflexivity.
  assert (Hle : 0 <= 2) by lia.
  split; [exact Hapi | ]. split; [exact Hle | ].
  apply (exhausted_loop_throws_the_last_error ticking_clock sample_toISOString
           (render w) quiet "hello" 0 2 w
           (fun k _ _ => Rejected (toString (N.of_nat k))) "2" Hapi Hle).
  - intros k _. eexists. reflexivity.
  - reflexivity.
Defined.

(** X12 on a session of two sends with text, one of two spaces, one of an
    ideographic space (U+3000) and two setters. *)
Lemma transcript_grows_by_two_per_send_witness :
  let w := useChat ticking_clock sample_toISOString echo default_options in
  let ops := [OpSend "hello" quiet;
              OpHost (HSetSystemPrompt "Be brief.");
              OpSend "  " quiet;
              OpSend (bytes [227; 128; 128]) quiet;
              OpHost (HUpdateApiFunction always_rejects);
              OpSend "again" prompt_swapped_during_first_wait] in
  Forall clear_free ops /\
  exists tail,
    messages (run ticking_clock sample_toISOString ops w) = messages w ++ tail /\
    length tail = 2 * nonblank_sends ops.
Proof.
  intros w ops.
  assert (Hquiet : ~ scheduled quiet HClearMessages)
    by (intros [k [Hin | Hin]]; exact Hin).
  assert (Hswap : ~ scheduled prompt_swapped_during_first_wait HClearMessages).
  { intros [k [Hin | Hin]]; simpl in Hin; [exact Hin | ].
    destruct (Nat.eqb k 0); simpl in Hin; [ | exact Hin].
    destruct Hin as [Heq | []]. discriminate. }
  assert (Hfree : Forall clear_free ops)
    by (repeat constructor; simpl; try assumption; discriminate).
  split; [exact Hfree | ].
  exact (transcript_grows_by_two_per_send ticking_clock sample_toISOString
           ops w Hfree).
Defined.

(** X13 on a responder that replies at once, with the host swapping the
    prompt before and after it clears the transcript. *)
Lemma clearing_during_the_call_leaves_greeting_and_reply_witness :
  let w := useChat ticking_clock sample_toISOString breathing default_options in
  let sched := {| during_call := fun _ => [HSetSystemPrompt "Be brief.";
                                            HClearMessages;
                                            HSetSystemPrompt "Be kind."];
                  during_wait := fun _ => [] |} in
  let send := sendMessage ticking_clock sample_toISOString sched in
  apiFunction w = breathing /\
  trim "I feel anxious" <> "" /\
  In HClearMessages (during_call sched 0) /\
  exists u g a : Message,
    send "I feel anxious" w = (Normal (Some u), after (send "I feel anxious") w) /\
    text u = "I feel anxious" /\ isUser u = true /\
    messages (after (send "I feel anxious") w) = [g; a] /\
    id g = "1" /\ said g = (false, greetingText) /\
    isUser a = false /\
    ~ In u (messages (after (send "I feel anxious") w)) /\
    (forall reply,
       Resolved "Let's try a breathing exercise" = Resolved reply ->
       said a = (false, reply)).
Proof.
  intros w sched send.
  assert (Hapi : apiFunction w = breathing) by reflexivity.
  assert (Hnonblank : trim "I feel anxious" <> "") by (vm_compute; discriminate).
  assert (Hclear : In HClearMessages (during_call sched 0))
    by (simpl; right; left; reflexivity).
  split; [exact Hapi | ]. split; [exact Hnonblank | ]. split; [exact Hclear | ].
  exact (clearing_during_the_call_leaves_greeting_and_reply
           ticking_clock sample_toISOString
           (fun _ _ _ => Resolved "Let's try a breathing exercise")
           sched "I feel anxious" w Hapi Hnonblank Hclear).
Defined.
